(** * Credential acquisition and request forwarding of [server.js]

    A shallow embedding of [getCrumb] and [yfRequest] (and of the string
    primitives they use) together with the properties of the credential
    cache and of the single authentication retry.

    The module-level variables [_crumb], [_cookies] and [_crumbTime] are
    one shared record that every call reads and writes.  [Date.now()] and
    [axios.get] are the environment: a clock giving its k-th reading and an
    upstream giving the outcome of the k-th request.  Exceptions never roll
    the shared record back, so the computations below are state-passing
    functions returning either a value or the thrown error, with the world
    as it is at that point. *)

From Stdlib Require Import ZArith List String Ascii Bool Lia.
Import ListNotations.

Local Open Scope string_scope.
Local Open Scope Z_scope.

(** ** JavaScript strings *)

Module JsString.

(** [s.includes(pat)]: [pat] occurs in [s] at some position. *)
Fixpoint includes (s pat : string) : bool :=
  String.prefix pat s
  || match s with
     | EmptyString => false
     | String _ s' => includes s' pat
     end.

(** [s.split(sep)] for a one-character separator: the segments between
    the occurrences of [sep], in order; never the empty array. *)
Fixpoint split (sep : ascii) (s : string) : list string :=
  match s with
  | EmptyString => [EmptyString]
  | String c s' =>
      if Ascii.eqb c sep then EmptyString :: split sep s'
      else match split sep s' with
           | seg :: segs => String c seg :: segs
           | [] => [String c EmptyString]
           end
  end.

(** [arr[0]] on an array of strings; the missing element of an empty array
    is rendered as the empty string by [join]. *)
Definition first (segs : list string) : string := hd EmptyString segs.

(** [arr.join(sep)]. *)
Definition join (sep : string) (arr : list string) : string :=
  String.concat sep arr.

(** Membership of a character, used to state what [includes] and [split]
    compute. *)
Fixpoint mem (c : ascii) (s : string) : bool :=
  match s with
  | EmptyString => false
  | String d s' => Ascii.eqb d c || mem c s'
  end.

(** The characters before the first occurrence of [c]. *)
Fixpoint before (c : ascii) (s : string) : string :=
  match s with
  | EmptyString => EmptyString
  | String d s' => if Ascii.eqb d c then EmptyString else String d (before c s')
  end.

End JsString.

(** ** [encodeURIComponent]

    A string is the sequence of the UTF-8 bytes of a well-formed text, so
    its length here is a number of bytes, not of UTF-16 code units.
    [encodeURIComponent] keeps the unreserved characters
    [A-Z a-z 0-9 - _ . ! ~ * ' ( )] and writes every other byte of the UTF-8
    encoding as [%XX] with upper-case hexadecimal digits.  On a JavaScript
    string with a lone surrogate it throws a [URIError] instead; such a
    string has no UTF-8 form and is not a string of this development. *)

Module Uri.

Definition between (lo hi n : nat) : bool :=
  (Nat.leb lo n && Nat.leb n hi)%bool.

Definition unreserved (c : ascii) : bool :=
  let n := nat_of_ascii c in
  (between 65 90 n || between 97 122 n || between 48 57 n
   || Nat.eqb n 45 || Nat.eqb n 95 || Nat.eqb n 46 || Nat.eqb n 33
   || Nat.eqb n 126 || Nat.eqb n 42 || Nat.eqb n 39 || Nat.eqb n 40
   || Nat.eqb n 41)%bool.

Definition hexdigit (n : nat) : ascii :=
  if Nat.ltb n 10 then ascii_of_nat (48 + n) else ascii_of_nat (55 + n).

Definition percent (c : ascii) : string :=
  let n := nat_of_ascii c in
  String "%" (String (hexdigit (Nat.div n 16))
                (String (hexdigit (Nat.modulo n 16)) EmptyString)).

Fixpoint encode (s : string) : string :=
  match s with
  | EmptyString => EmptyString
  | String c s' =>
      if unreserved c then String c (encode s')
      else percent c ++ encode s'
  end.


End Uri.

(** ** Values, requests and responses *)

(** A number, known by what [server.js] can observe of it: whether it is
    zero, and the text [String(n)] gives. *)
Record Number : Type := mkNumber {
  is_zero : bool;
  numeral : string
}.

(** The values the program handles: [null], strings, and what [JSON.parse]
    can make of a response body besides. *)
#[warnings="-register-all"]
Inductive jsval : Type :=
| JNull
| JStr (s : string)
| JBool (b : bool)
| JNum (n : Number)
| JArray (elements : list jsval)
| JObject (members : list (string * jsval)).

(** JavaScript truthiness: [null], the empty string, [false] and zero are
    falsy; arrays and objects are truthy. *)
Definition truthy (v : jsval) : bool :=
  match v with
  | JNull => false
  | JStr s => negb (String.eqb s EmptyString)
  | JBool b => b
  | JNum n => negb (is_zero n)
  | JArray _ => true
  | JObject _ => true
  end.

(** [String(v)], as template literals and [encodeURIComponent] apply it; an
    array joins its elements with commas, a [null] element giving the empty
    string. *)
Fixpoint to_string (v : jsval) : string :=
  match v with
  | JNull => "null"
  | JStr s => s
  | JBool true => "true"
  | JBool false => "false"
  | JNum n => numeral n
  | JArray elements =>
      String.concat ","
        (map (fun e => match e with
                       | JNull => EmptyString
                       | _ => to_string e
                       end) elements)
  | JObject _ => "[object Object]"
  end.

Definition encodeURIComponent (v : jsval) : string := Uri.encode (to_string v).

Record Request : Type := mkRequest {
  url : string;
  headers : list (string * jsval);
  timeout : Z;
  maxRedirects : option Z
}.

(** An upstream reply as it arrives: status line, the [set-cookie] header
    (absent, or the array of its values) and the text of the body. *)
Record HttpReply : Type := mkHttpReply {
  reply_status : Z;
  reply_set_cookie : option (list string);
  reply_body : string
}.

(** The response object of axios: [data] is the body after axios' default
    [transformResponse]. *)
Record Response : Type := mkResponse {
  status : Z;
  set_cookie : option (list string);
  data : jsval
}.

(** What the network does with one request. *)
Inductive Upstream : Type :=
| Unreachable (msg : string)
| TimedOut
| Replied (r : HttpReply).

(** axios' default [transformResponse], no [responseType] being set: an
    empty body is left alone; any other body is handed to [JSON.parse], whose
    result is the data when the body parses, and the body itself is the data
    when it does not. *)
Definition transformResponse (parse : string -> option jsval) (body : string) : jsval :=
  if String.eqb body EmptyString then JStr EmptyString
  else match parse body with
       | Some v => v
       | None => JStr body
       end.

Definition axios_response (parse : string -> option jsval) (r : HttpReply) : Response :=
  {| status := reply_status r;
     set_cookie := reply_set_cookie r;
     data := transformResponse parse (reply_body r) |}.

(** The error [axios.get] rejects with; only a bad status carries a
    response. *)
Inductive AxiosError : Type :=
| NetworkError (msg : string)
| TimeoutError (ms : Z)
| BadStatus (r : Response).

Definition err_response (e : AxiosError) : option Response :=
  match e with
  | BadStatus r => Some r
  | _ => None
  end.

(** [err.response?.status === n] *)
Definition status_is (e : AxiosError) (n : Z) : bool :=
  match err_response e with
  | Some r => Z.eqb (status r) n
  | None => false
  end.

Inductive Settled : Type :=
| Resolved (r : Response)
| Rejected (e : AxiosError).

(** axios' default [validateStatus]: a reply resolves when its status is
    2xx and rejects otherwise; its data has been transformed either way. *)
Definition settle (parse : string -> option jsval) (req : Request) (u : Upstream)
  : Settled :=
  match u with
  | Unreachable msg => Rejected (NetworkError msg)
  | TimedOut => Rejected (TimeoutError (timeout req))
  | Replied r =>
      if (200 <=? reply_status r) && (reply_status r <? 300)
      then Resolved (axios_response parse r)
      else Rejected (BadStatus (axios_response parse r))
  end.

(** ** The shared state and the world *)

Record Creds : Type := mkCreds {
  _crumb : jsval;
  _cookies : jsval;
  _crumbTime : Z
}.

Definition Exchange : Type := (Request * Settled)%type.

(** The world of a run: the module-level credentials, the number of clock
    readings taken, every request issued so far with how it settled, and the
    console output. *)
Record World : Type := mkWorld {
  creds : Creds;
  ticks : nat;
  trace : list Exchange;
  console : list string
}.

(** The environment: the k-th reading of [Date.now()], the upstream's
    answer to the k-th request of the run, and [JSON.parse], which gives the
    value of a text or fails on it. *)
Record Env : Type := mkEnv {
  Date_now : nat -> Z;
  upstream : nat -> Request -> Upstream;
  JSON_parse : string -> option jsval
}.

Definition initial : World :=
  {| creds := {| _crumb := JNull; _cookies := JNull; _crumbTime := 0 |};
     ticks := 0; trace := []; console := [] |}.

(** ** Computations that may throw *)

Inductive Completion (A : Type) : Type :=
| Return (a : A)
| Throw (e : AxiosError).
Arguments Return {A} a.
Arguments Throw {A} e.

Definition Js (A : Type) : Type := World -> Completion A * World.

Definition ret {A} (a : A) : Js A := fun w => (Return a, w).

Definition throw {A} (e : AxiosError) : Js A := fun w => (Throw e, w).

Definition bind {A B} (m : Js A) (k : A -> Js B) : Js B :=
  fun w =>
    match m w with
    | (Return a, w') => k a w'
    | (Throw e, w') => (Throw e, w')
    end.

(** [try { body } catch (err) { handler }]: the handler starts from the
    world the body left behind. *)
Definition try_catch {A} (body : Js A) (handler : AxiosError -> Js A) : Js A :=
  fun w =>
    match body w with
    | (Return a, w') => (Return a, w')
    | (Throw e, w') => handler e w'
    end.

Declare Scope js_scope.
Delimit Scope js_scope with js.
Notation "x <- m ;; k" := (bind m (fun x => k))
  (at level 61, m at next level, right associativity) : js_scope.
Notation "m ;; k" := (bind m (fun _ => k))
  (at level 61, right associativity) : js_scope.

Definition read {A} (f : Creds -> A) : Js A := fun w => (Return (f (creds w)), w).

Definition write (f : Creds -> Creds) : Js unit :=
  fun w => (Return tt, {| creds := f (creds w); ticks := ticks w;
                          trace := trace w; console := console w |}).

Definition set_crumb (v : jsval) : Js unit :=
  write (fun c => {| _crumb := v; _cookies := _cookies c; _crumbTime := _crumbTime c |}).

Definition set_cookies (v : jsval) : Js unit :=
  write (fun c => {| _crumb := _crumb c; _cookies := v; _crumbTime := _crumbTime c |}).

Definition set_crumbTime (t : Z) : Js unit :=
  write (fun c => {| _crumb := _crumb c; _cookies := _cookies c; _crumbTime := t |}).

Definition console_log (line : string) : Js unit :=
  fun w => (Return tt, {| creds := creds w; ticks := ticks w;
                          trace := trace w; console := (console w ++ [line])%list |}).

Definition CRUMB_TTL : Z := 60 * 60 * 1000.

Definition UA : string :=
  "Mozilla/5.0 (Windows NT 10.0; Win64; x64) AppleWebKit/537.36 (KHTML, like Gecko) Chrome/120.0.0.0 Safari/537.36".

Definition LANDING_URL : string := "https://finance.yahoo.com/".

Definition GETCRUMB_URL : string := "https://query1.finance.yahoo.com/v1/test/getcrumb".

(** The request of step 1 of [getCrumb]. *)
Definition landing_request : Request :=
  {| url := LANDING_URL;
     headers := [("User-Agent", JStr UA);
                 ("Accept", JStr "text/html,application/xhtml+xml,application/xml;q=0.9,*/*;q=0.8");
                 ("Accept-Language", JStr "en-US,en;q=0.5")];
     timeout := 15000;
     maxRedirects := Some 5 |}.

(** The request of step 2 of [getCrumb]. *)
Definition crumb_request (cookie : jsval) : Request :=
  {| url := GETCRUMB_URL;
     headers := [("User-Agent", JStr UA); ("Cookie", cookie); ("Accept", JStr "*/*")];
     timeout := 10000;
     maxRedirects := None |}.

(** The request [yfRequest] issues, on the first attempt and on the retry. *)
Definition data_request (target : string) (cookie : jsval) : Request :=
  {| url := target;
     headers := [("User-Agent", JStr UA); ("Cookie", cookie);
                 ("Accept", JStr "application/json")];
     timeout := 15000;
     maxRedirects := None |}.

(** [rawCookies.map(c => c.split(';')[0]).join('; ')] *)
Definition cookie_header (rawCookies : list string) : string :=
  JsString.join "; " (map (fun c => JsString.first (JsString.split ";" c)) rawCookies).

(** [r1.headers['set-cookie'] || []] *)
Definition raw_cookies (r : Response) : list string :=
  match set_cookie r with
  | Some arr => arr
  | None => []
  end.

Record CrumbPair : Type := mkPair {
  crumb : jsval;
  cookies : jsval
}.

(** [url.includes('?') ? '&' : '?'] *)
Definition separator (target : string) : string :=
  if JsString.includes target "?" then "&" else "?".

(** [`${url}${sep}crumb=${encodeURIComponent(crumb)}`] *)
Definition with_crumb (target sep : string) (c : jsval) : string :=
  target ++ sep ++ "crumb=" ++ encodeURIComponent c.

Section Program.

Variable env : Env.

Local Open Scope js_scope.

(** [Date.now()] *)
Definition date_now : Js Z :=
  fun w => (Return (Date_now env (ticks w)),
            {| creds := creds w; ticks := S (ticks w);
               trace := trace w; console := console w |}).

(** [await axios.get(url, config)]: the request and how it settled are
    appended to the trace. *)
Definition axios_get (req : Request) : Js Response :=
  fun w =>
    let s := settle (JSON_parse env) req (upstream env (List.length (trace w)) req) in
    let w' := {| creds := creds w; ticks := ticks w;
                 trace := (trace w ++ [(req, s)])%list; console := console w |} in
    match s with
    | Resolved r => (Return r, w')
    | Rejected e => (Throw e, w')
    end.

(** [_crumb && Date.now() - _crumbTime < CRUMB_TTL]; the clock is read
    only when [_crumb] is truthy. *)
Definition cache_is_fresh : Js bool :=
  c <- read _crumb ;;
  if truthy c then
    now <- date_now ;;
    t <- read _crumbTime ;;
    ret (now - t <? CRUMB_TTL)
  else ret false.

Definition current_pair : Js CrumbPair :=
  c <- read _crumb ;;
  k <- read _cookies ;;
  ret {| crumb := c; cookies := k |}.

Definition getCrumb : Js CrumbPair :=
  fresh <- cache_is_fresh ;;
  if fresh then current_pair
  else
    r1 <- axios_get landing_request ;;
    let rawCookies := raw_cookies r1 in
    set_cookies (JStr (cookie_header rawCookies)) ;;
    k <- read _cookies ;;
    r2 <- axios_get (crumb_request k) ;;
    set_crumb (data r2) ;;
    now <- date_now ;;
    set_crumbTime now ;;
    console_log "✅ Yahoo Finance crumb 갱신 완료" ;;
    current_pair.

(** [_crumb = null] *)
Definition invalidate : Js unit := set_crumb JNull.

Definition yfRequest (target : string) : Js jsval :=
  p <- getCrumb ;;
  let sep := separator target in
  let finalUrl := with_crumb target sep (crumb p) in
  try_catch
    (res <- axios_get (data_request finalUrl (cookies p)) ;;
     ret (data res))
    (fun err =>
       if status_is err 401 || status_is err 403 then
         invalidate ;;
         p2 <- getCrumb ;;
         let url2 := with_crumb target sep (crumb p2) in
         res2 <- axios_get (data_request url2 (cookies p2)) ;;
         ret (data res2)
       else throw err).

End Program.

(** ** Derived notions used in the statements *)

(** The value of the freshness test of [getCrumb] in world [w]. *)
Definition is_fresh (env : Env) (w : World) : bool :=
  truthy (_crumb (creds w))
  && (Date_now env (ticks w) - _crumbTime (creds w) <? CRUMB_TTL).

(** The world once the freshness test has run: one more clock reading exactly
    when [_crumb] was truthy. *)
Definition checked (w : World) : World :=
  {| creds := creds w;
     ticks := if truthy (_crumb (creds w)) then S (ticks w) else ticks w;
     trace := trace w;
     console := console w |}.

(** How the next request [req] would settle in world [w]. *)
Definition outcome (env : Env) (w : World) (req : Request) : Settled :=
  settle (JSON_parse env) req (upstream env (List.length (trace w)) req).

(** World [w] with [x] appended to its trace. *)
Definition logged (w : World) (x : Exchange) : World :=
  {| creds := creds w; ticks := ticks w;
     trace := (trace w ++ [x])%list; console := console w |}.

(** The exchanges a computation added to the trace of [w]. *)
Definition issued (w w' : World) : list Exchange :=
  skipn (List.length (trace w)) (trace w').

(** A request of [yfRequest] to a data endpoint, as opposed to the two
    requests of the acquisition. *)
Definition is_data_request (x : Exchange) : bool :=
  negb (String.eqb (url (fst x)) LANDING_URL)
  && negb (String.eqb (url (fst x)) GETCRUMB_URL).

Definition data_requests (tr : list Exchange) : nat :=
  List.length (filter is_data_request tr).

(** The error is an authentication rejection: status 401 or 403. *)
Definition auth_rejected (e : AxiosError) : bool :=
  status_is e 401 || status_is e 403.

(** The cookie header [getCrumb] derives from the landing-page reply. *)
Definition harvested (r1 : Response) : jsval :=
  JStr (cookie_header (raw_cookies r1)).

(** The world after step 1 succeeded with [r1]: the exchange is on the trace
    and [_cookies] already holds the new header. *)
Definition cookies_stored (w : World) (r1 : Response) : World :=
  {| creds := {| _crumb := _crumb (creds w);
                 _cookies := harvested r1;
                 _crumbTime := _crumbTime (creds w) |};
     ticks := ticks (checked w);
     trace := (trace w ++ [(landing_request, Resolved r1)])%list;
     console := console w |}.

(** The world after a complete acquisition that started in [w]. *)
Definition acquired (env : Env) (w : World) (r1 r2 : Response) : World :=
  {| creds := {| _crumb := data r2;
                 _cookies := harvested r1;
                 _crumbTime := Date_now env (ticks (checked w)) |};
     ticks := S (ticks (checked w));
     trace := (trace w ++ [(landing_request, Resolved r1);
                           (crumb_request (harvested r1), Resolved r2)])%list;
     console := (console w ++ ["✅ Yahoo Finance crumb 갱신 완료"])%list |}.

(** The world after [_crumb = null]. *)
Definition invalidated (w : World) : World :=
  {| creds := {| _crumb := JNull;
                 _cookies := _cookies (creds w);
                 _crumbTime := _crumbTime (creds w) |};
     ticks := ticks w; trace := trace w; console := console w |}.

(** The request [yfRequest] builds for [target] from a credential pair; the
    first attempt and the retry use the same expression. *)
Definition attempt (target : string) (p : CrumbPair) : Request :=
  data_request (with_crumb target (separator target) (crumb p)) (cookies p).

(** The completion of a data request that settled as [s]. *)
Definition body_of (s : Settled) : Completion jsval :=
  match s with
  | Resolved r => Return (data r)
  | Rejected e => Throw e
  end.

(** The token variable holds a value other than [null], whatever it is. *)
Definition present (v : jsval) : bool :=
  match v with
  | JNull => false
  | _ => true
  end.

(** The four ways a call of [getCrumb] in world [w] can go. *)
Inductive crumb_run (env : Env) (w : World) : Completion CrumbPair * World -> Prop :=
| run_cached :
    is_fresh env w = true ->
    crumb_run env w
      (Return {| crumb := _crumb (creds w); cookies := _cookies (creds w) |},
       checked w)
| run_landing_fails (e : AxiosError) :
    is_fresh env w = false ->
    outcome env (checked w) landing_request = Rejected e ->
    crumb_run env w (Throw e, logged (checked w) (landing_request, Rejected e))
| run_token_fails (r1 : Response) (e : AxiosError) :
    is_fresh env w = false ->
    outcome env (checked w) landing_request = Resolved r1 ->
    outcome env (cookies_stored w r1) (crumb_request (harvested r1)) = Rejected e ->
    crumb_run env w
      (Throw e, logged (cookies_stored w r1) (crumb_request (harvested r1), Rejected e))
| run_acquires (r1 r2 : Response) :
    is_fresh env w = false ->
    outcome env (checked w) landing_request = Resolved r1 ->
    outcome env (cookies_stored w r1) (crumb_request (harvested r1)) = Resolved r2 ->
    crumb_run env w
      (Return {| crumb := data r2; cookies := harvested r1 |},
       acquired env w r1 r2).

(** From [w] to [w'] the trace only grew, by exchanges of which [n] are
    requests to a data endpoint. *)
Definition grows (w w' : World) (n : nat) : Prop :=
  exists xs, trace w' = (trace w ++ xs)%list /\ data_requests xs = n.

(** ** Acquisition cycles *)

(** The pair held by the credential variables. *)
Definition stored_pair (w : World) : CrumbPair :=
  {| crumb := _crumb (creds w); cookies := _cookies (creds w) |}.

(** Both halves of [p] come from one acquisition cycle recorded in [tr]: a
    landing-page exchange immediately followed by the token exchange that
    presented the cookies of that landing page, the cookies of [p] being
    those cookies and the token of [p] the body of that token reply. *)
Definition same_cycle (tr : list Exchange) (p : CrumbPair) : Prop :=
  exists i r1 r2,
    nth_error tr i = Some (landing_request, Resolved r1)
    /\ nth_error tr (S i) = Some (crumb_request (harvested r1), Resolved r2)
    /\ cookies p = harvested r1
    /\ crumb p = data r2.

(** Successive readings of the clock never decrease. *)
Definition monotone (clock : nat -> Z) : Prop :=
  forall i j, (i <= j)%nat -> clock i <= clock j.

(** No reading the clock can still give makes the stored token pass the
    freshness test. *)
Definition expired (env : Env) (w : World) : Prop :=
  forall k, (ticks w <= k)%nat -> CRUMB_TTL <= Date_now env k - _crumbTime (creds w).

(** The invariant of the credential variables: a token that can still be
    served from the cache sits next to the cookies of its own cycle. *)
Definition paired (env : Env) (w : World) : Prop :=
  truthy (_crumb (creds w)) = false
  \/ expired env w
  \/ same_cycle (trace w) (stored_pair w).

Definition page_url (symbol : string) : string :=
  "https://finance.yahoo.com/quote/" ++ encodeURIComponent (JStr symbol) ++ "/".

(** The request of the [/api/page/:symbol] handler. *)
Definition page_request (symbol : string) (cookie : jsval) : Request :=
  {| url := page_url symbol;
     headers := [("User-Agent", JStr UA); ("Cookie", cookie);
                 ("Accept", JStr "text/html,application/xhtml+xml");
                 ("Accept-Language", JStr "en-US,en;q=0.5")];
     timeout := 12000;
     maxRedirects := None |}.

(** The worlds a sequential run can be in when it calls [getCrumb]: the
    initial one, and those reached by a call of [getCrumb], by a reading of
    the clock, by the invalidation of the token, by a request of [yfRequest]
    to the data endpoint, by the request of the page handler and by a line
    written to the console. *)
Inductive reachable (env : Env) : World -> Prop :=
| reach_initial : reachable env initial
| reach_getCrumb (w : World) :
    reachable env w -> reachable env (snd (getCrumb env w))
| reach_clock (w : World) :
    reachable env w -> reachable env (snd (date_now env w))
| reach_invalidate (w : World) :
    reachable env w -> reachable env (snd (invalidate w))
| reach_attempt (w : World) (target : string) (p : CrumbPair) :
    reachable env w -> reachable env (snd (axios_get env (attempt target p) w))
| reach_page (w : World) (symbol : string) (cookie : jsval) :
    reachable env w ->
    reachable env (snd (axios_get env (page_request symbol cookie) w))
| reach_console (w : World) (line : string) :
    reachable env w -> reachable env (snd (console_log line w)).

(** ** Scenarios *)

Module Scenario.

Definition ok (cookies : option (list string)) (body : string) : Upstream :=
  Replied {| reply_status := 200; reply_set_cookie := cookies; reply_body := body |}.

Definition refused (code : Z) : Upstream :=
  Replied {| reply_status := code; reply_set_cookie := None;
             reply_body := EmptyString |}.

Definition zero : Number := {| is_zero := true; numeral := "0" |}.

Definition number (text : string) : jsval :=
  JNum {| is_zero := false; numeral := text |}.

(** What [JSON.parse] makes of the bodies of the scenarios: [{}] is the
    empty object, [0] and [404] are numbers, [[1, 2]] is an array.  The other
    bodies the scenarios use ([<html>], [abc123], [t1], [t2], [a&b+c]) are not
    JSON, and a text that occurs in no scenario is taken not to parse. *)
Definition parse (text : string) : option jsval :=
  if String.eqb text "{}" then Some (JObject [])
  else if String.eqb text "0" then Some (JNum zero)
  else if String.eqb text "404" then Some (number "404")
  else if String.eqb text "[1, 2]" then Some (JArray [number "1"; number "2"])
  else None.

(** A clock that advances one second per reading. *)
Definition second_clock (k : nat) : Z := 1000 * Z.of_nat k.

(** An upstream scripted by position: the k-th request gets the k-th
    entry, and every request past the script is unreachable. *)
Definition scripted (script : list Upstream) (k : nat) (_ : Request) : Upstream :=
  nth k script (Unreachable "ECONNREFUSED").

Definition env_of (script : list Upstream) : Env :=
  {| Date_now := second_clock; upstream := scripted script; JSON_parse := parse |}.

(** Scenario A: the landing page sets [A=1], the token endpoint
    answers [abc123]. *)
Definition scenario_a : Env := env_of [ok (Some ["A=1"]) "<html>"; ok None "abc123"].

(** The landing page sets two cookies with attributes. *)
Definition two_cookies : Env :=
  env_of [ok (Some ["A=1; Path=/; Secure"; "B=2; HttpOnly"]) "<html>";
          ok None "abc123"].

(** The token endpoint answers the text [0]. *)
Definition numeric_token : Env := env_of [ok (Some ["A=1"]) "<html>"; ok None "0"].

(** Two acquisitions in which the token endpoint answers the text [0]. *)
Definition numeric_token_twice : Env :=
  env_of [ok (Some ["A=1"]) "<html>"; ok None "0";
          ok (Some ["B=2"]) "<html>"; ok None "0"].

(** The landing page answers, the token endpoint refuses with a 500. *)
Definition token_refused : Env :=
  env_of [ok (Some ["B=2; Path=/"]) "<html>"; refused 500].

(** A credential state acquired one TTL before the clock starts. *)
Definition cached_long_ago : World :=
  {| creds := {| _crumb := JStr "abc123"; _cookies := JStr "A=1";
                 _crumbTime := - CRUMB_TTL |};
     ticks := 0; trace := []; console := [] |}.

(** A credential state whose token is the empty string, acquired at time
    0 together with the cookie [A=1]. *)
Definition empty_token : World :=
  {| creds := {| _crumb := JStr ""; _cookies := JStr "A=1"; _crumbTime := 0 |};
     ticks := 0; trace := []; console := [] |}.

(** A credential state acquired at time 0 with token [abc123]. *)
Definition cached : World :=
  {| creds := {| _crumb := JStr "abc123"; _cookies := JStr "A=1"; _crumbTime := 0 |};
     ticks := 0; trace := []; console := [] |}.

Definition target_b : string := "https://x/y?range=6mo".


Definition chart : string := "https://query1.finance.yahoo.com/v8/finance/chart/AAPL".

(** Scenario C: acquisition, a 403 on the first attempt, a second
    acquisition and a 200 on the retry. *)
Definition scenario_c : Env :=
  env_of [ok (Some ["A=1"]) "<html>"; ok None "t1"; refused 403;
          ok (Some ["B=2"]) "<html>"; ok None "t2"; ok None "{}"].

(** Acquisition, a 401 on the first attempt, and then an upstream that
    cannot be reached any more. *)
Definition reacquisition_fails : Env :=
  env_of [ok (Some ["A=1"]) "<html>"; ok None "t1"; refused 401].


(** Acquisition and a 500 on the first attempt. *)
Definition server_error : Env :=
  env_of [ok (Some ["A=1"]) "<html>"; ok None "t1"; refused 500].

(** A first cycle, then one hour later a second cycle whose token
    request is refused. *)
Definition second_cycle_fails : Env :=
  env_of [ok (Some ["A=1"]) "<html>"; ok None "t1";
          ok (Some ["B=2"]) "<html>"; refused 500].

(** A clock that reads 0, then one hour, and then steps back to ten
    minutes. *)
Definition stepping_back (k : nat) : Z :=
  match k with
  | O => 0
  | S O => CRUMB_TTL
  | _ => 600000
  end.

Definition clock_steps_back : Env :=
  {| Date_now := stepping_back;
     upstream := upstream second_cycle_fails;
     JSON_parse := parse |}.

End Scenario.

(** ** The route handlers of [server.js] *)

(** A value of [req.query]: [undefined] or a string. *)
Definition param : Type := option string.

(** The default of a destructuring pattern [{ x = d }]: it applies to
    [undefined] only. *)
Definition or_default (v : param) (d : string) : string :=
  match v with
  | Some s => s
  | None => d
  end.

(** [String(v)], as template literals and [encodeURIComponent] apply it to
    a query value. *)
Definition param_text (v : param) : string :=
  match v with
  | Some s => s
  | None => "undefined"
  end.

(** [!v] on a query value: [undefined] and the empty string are falsy. *)
Definition missing (v : param) : bool :=
  match v with
  | None => true
  | Some s => String.eqb s EmptyString
  end.

(** What a handler hands to [res]: [res.json(data)], [res.json({error})]
    or [res.send(data)]. *)
Inductive Payload : Type :=
| Json (value : jsval)
| JsonError (error : string)
| Sent (value : jsval).

(** The calls a handler makes on [res]: the status it sets with
    [res.status(n)], if it sets one, and the payload.  The HTTP reply is what
    Express makes of them. *)
Record Reply : Type := mkReply {
  code : option Z;
  payload : Payload
}.

Definition chart_url (symbol : string) (range interval includePrePost : param) : string :=
  "https://query1.finance.yahoo.com/v8/finance/chart/"
    ++ encodeURIComponent (JStr symbol)
    ++ "?range=" ++ or_default range "6mo"
    ++ "&interval=" ++ or_default interval "1d"
    ++ "&includePrePost=" ++ or_default includePrePost "false".

Definition quote_url (symbols : string) : string :=
  "https://query1.finance.yahoo.com/v7/finance/quote?symbols="
    ++ encodeURIComponent (JStr symbols).

Definition summary_url (symbol : string) (modules : param) : string :=
  "https://query1.finance.yahoo.com/v10/finance/quoteSummary/"
    ++ encodeURIComponent (JStr symbol)
    ++ "?modules="
    ++ encodeURIComponent
         (JStr (or_default modules "defaultKeyStatistics,financialData,summaryDetail,price")).

Definition screener_url (filter : string) (count : param) : string :=
  "https://query1.finance.yahoo.com/v1/finance/screener/predefined/saved?formatted=false&lang=en-US&region=US&scrIds="
    ++ filter ++ "&count=" ++ or_default count "100".

Section Routes.

Variable env : Env.

(** [err.message], a field axios sets on the errors it rejects with. *)
Variable message : AxiosError -> string.

Local Open Scope js_scope.

(** [console.error(label, err.message)] *)
Definition console_error (label : string) (err : AxiosError) : Js unit :=
  console_log (label ++ " " ++ message err).

(** [GET /api/chart/:symbol] *)
Definition apiChart (symbol : string) (range interval includePrePost : param) : Js Reply :=
  try_catch
    (let target := chart_url symbol range interval includePrePost in
     body <- yfRequest env target ;;
     ret {| code := None; payload := Json body |})
    (fun err =>
       console_error ("[chart] " ++ symbol ++ ":") err ;;
       ret {| code := Some 500; payload := JsonError (message err) |}).

(** [GET /api/quote] *)
Definition apiQuote (symbols : param) : Js Reply :=
  if missing symbols then
    ret {| code := Some 400; payload := JsonError "symbols 파라미터가 필요합니다." |}
  else
    try_catch
      (let target := quote_url (param_text symbols) in
       body <- yfRequest env target ;;
       ret {| code := None; payload := Json body |})
      (fun err =>
         console_error ("[quote] " ++ param_text symbols ++ ":") err ;;
         ret {| code := Some 500; payload := JsonError (message err) |}).

(** [GET /api/summary/:symbol] *)
Definition apiSummary (symbol : string) (modules : param) : Js Reply :=
  try_catch
    (let target := summary_url symbol modules in
     body <- yfRequest env target ;;
     ret {| code := None; payload := Json body |})
    (fun err =>
       console_error ("[summary] " ++ symbol ++ ":") err ;;
       ret {| code := Some 500; payload := JsonError (message err) |}).

(** [GET /api/screener/:filter] *)
Definition apiScreener (filter : string) (count : param) : Js Reply :=
  try_catch
    (let target := screener_url filter count in
     body <- yfRequest env target ;;
     ret {| code := None; payload := Json body |})
    (fun err =>
       console_error ("[screener] " ++ filter ++ ":") err ;;
       ret {| code := Some 500; payload := JsonError (message err) |}).

(** [GET /api/page/:symbol]: the cookies of [getCrumb] and no token. *)
Definition apiPage (symbol : string) : Js Reply :=
  try_catch
    (p <- getCrumb env ;;
     r <- axios_get env (page_request symbol (cookies p)) ;;
     ret {| code := None; payload := Sent (data r) |})
    (fun err =>
       console_error ("[page] " ++ symbol ++ ":") err ;;
       ret {| code := Some 500; payload := Sent (JStr EmptyString) |}).

End Routes.

(** The requests a computation added to the trace, without how they
    settled. *)
Definition requests (w w' : World) : list Request :=
  map fst (issued w w').

(** From [w] to [w'] everything but the console is as it was. *)
Definition same_but_console (w w' : World) : Prop :=
  creds w' = creds w /\ ticks w' = ticks w /\ trace w' = trace w.

(** Every request for the token in [tr] comes right after a landing-page
    exchange that resolved, and presents the cookies of that reply. *)
Definition token_after_landing (tr : list Exchange) : Prop :=
  forall i k s,
    nth_error tr i = Some (crumb_request k, s) ->
    exists j r1,
      i = S j
      /\ nth_error tr j = Some (landing_request, Resolved r1)
      /\ k = harvested r1.

(** The handler [h] relays [target] through [yfRequest]: in every world it
    returns and never throws; it calls [res.json] without setting a status
    on the data [yfRequest] returned, which is the data of the last exchange
    of the trace, or sets status 500 and answers the message of the error
    [yfRequest] threw; the credentials and the trace are those [yfRequest]
    left. *)
Definition relays (env : Env) (message : AxiosError -> string)
    (target : string) (h : Js Reply) : Prop :=
  forall w,
    exists reply w',
      h w = (Return reply, w')
      /\ creds w' = creds (snd (yfRequest env target w))
      /\ trace w' = trace (snd (yfRequest env target w))
      /\ (List.length (issued w w') <= 6)%nat
      /\ ((exists tr r,
              reply = {| code := None; payload := Json (data r) |}
              /\ fst (yfRequest env target w) = Return (data r)
              /\ trace w' = (tr ++ [(attempt target (stored_pair w'), Resolved r)])%list)
          \/ (exists e,
                 reply = {| code := Some 500; payload := JsonError (message e) |}
                 /\ fst (yfRequest env target w) = Throw e)).

(** ** Reading an encoding back *)

Module Unescape.

(** The value of a hexadecimal digit. *)
Definition hexval (c : ascii) : nat :=
  let n := nat_of_ascii c in
  if Uri.between 48 57 n then (n - 48)%nat
  else if Uri.between 65 70 n then (n - 55)%nat
  else if Uri.between 97 102 n then (n - 87)%nat
  else 0%nat.

(** Every [%XX] is replaced by the byte it stands for; a [%] that is not
    followed by two characters stays as it is. *)
Fixpoint decode (s : string) : string :=
  match s with
  | EmptyString => EmptyString
  | String c rest =>
      if Ascii.eqb c "%" then
        match rest with
        | String a (String b r) =>
            String (ascii_of_nat (16 * hexval a + hexval b)) (decode r)
        | _ => String c (decode rest)
        end
      else String c (decode rest)
  end.

(** Every character of [s] satisfies [P]. *)
Fixpoint every (P : ascii -> bool) (s : string) : bool :=
  match s with
  | EmptyString => true
  | String c s' => P c && every P s'
  end.

(** The characters an encoding is made of. *)
Definition encoded_char (c : ascii) : bool :=
  Uri.unreserved c || Ascii.eqb c "%".

End Unescape.

(** ** The service worker of [sw.js]

    The worker's events are handled one at a time: the cache write that the
    fetch handler starts without waiting for it has completed before the next
    event is handled.  The Cache API and [fetch] are the environment.  A
    cache is the list of its entries, each a stored request with its
    response; a request matches an entry when the URLs are equal and the two
    requests agree on every header the response's [Vary] lists.  The cache
    storage is the list of the named caches in creation order, and the
    network gives the answer to the k-th fetch of the run, or fails.  Header
    names are in lower case. *)

Module Sw.

(** A parsed URL, as [new URL(e.request.url)] and [self.location] show
    it. *)
Record Url : Type := mkUrl {
  scheme : string;
  hostname : string;
  port : string;
  pathname : string;
  search : string
}.

Record SwRequest : Type := mkSwRequest {
  request_url : Url;
  is_get : bool;
  request_headers : list (string * string)
}.

(** A response: its status, the header names its [Vary] lists, its body. *)
Record SwResponse : Type := mkSwResponse {
  res_status : Z;
  res_vary : list string;
  res_body : string
}.

Definition Entry : Type := (SwRequest * SwResponse)%type.

Definition Cache : Type := list Entry.

Definition CacheStorage : Type := list (string * Cache).

Record SwWorld : Type := mkSwWorld {
  storage : CacheStorage;
  fetched : list SwRequest
}.

(** The answer of the network to the k-th fetch; [None] is a rejected
    fetch. *)
Definition Network : Type := nat -> SwRequest -> option SwResponse.

Definition CACHE_NAME : string := "stockai-v1".

Definition STATIC_ASSETS : list string :=
  ["/"; "/index.html"; "/icon.svg"; "/manifest.json"].

Definition url_eqb (a b : Url) : bool :=
  String.eqb (scheme a) (scheme b)
  && String.eqb (hostname a) (hostname b)
  && String.eqb (port a) (port b)
  && String.eqb (pathname a) (pathname b)
  && String.eqb (search a) (search b).

Fixpoint header (hs : list (string * string)) (name : string) : option string :=
  match hs with
  | [] => None
  | (k, v) :: hs' => if String.eqb k name then Some v else header hs' name
  end.

Definition same_header (a b : SwRequest) (field : string) : bool :=
  match header (request_headers a) field, header (request_headers b) field with
  | Some x, Some y => String.eqb x y
  | None, None => true
  | _, _ => false
  end.

(** The response may be stored: its [Vary] does not list [*]. *)
Definition vary_known (r : SwResponse) : bool :=
  forallb (fun field => negb (String.eqb field "*")) (res_vary r).

(** The request matches the cache entry. *)
Definition matches (req : SwRequest) (e : Entry) : bool :=
  url_eqb (request_url (fst e)) (request_url req)
  && vary_known (snd e)
  && forallb (same_header (fst e) req) (res_vary (snd e)).

(** [cache.match(request)]: the response of the first matching entry. *)
Fixpoint cache_match (c : Cache) (req : SwRequest) : option SwResponse :=
  match c with
  | [] => None
  | e :: c' => if matches req e then Some (snd e) else cache_match c' req
  end.

(** [cache.put(request, response)], once accepted: the entries the request
    matches are removed and the new entry is added. *)
Definition cache_put (c : Cache) (req : SwRequest) (r : SwResponse) : Cache :=
  (filter (fun e => negb (matches req e)) c ++ [(req, r)])%list.

Fixpoint match_any (cs : CacheStorage) (req : SwRequest) : option SwResponse :=
  match cs with
  | [] => None
  | (_, c) :: cs' =>
      match cache_match c req with
      | Some r => Some r
      | None => match_any cs' req
      end
  end.

(** [caches.match(request)]: the first match over the caches in creation
    order; a request that is not a GET matches nothing. *)
Definition caches_match (cs : CacheStorage) (req : SwRequest) : option SwResponse :=
  if is_get req then match_any cs req else None.

(** [caches.keys()] *)
Definition caches_keys (cs : CacheStorage) : list string := map fst cs.

(** [caches.delete(name)] *)
Definition caches_delete (name : string) (cs : CacheStorage) : CacheStorage :=
  filter (fun e => negb (String.eqb (fst e) name)) cs.

(** [caches.open(name)]: the cache is created when it does not exist. *)
Definition caches_open (name : string) (cs : CacheStorage) : CacheStorage :=
  if existsb (fun e => String.eqb (fst e) name) cs then cs
  else (cs ++ [(name, [])])%list.

Definition update_cache (name : string) (f : Cache -> Cache) (cs : CacheStorage)
  : CacheStorage :=
  map (fun e => if String.eqb (fst e) name then (fst e, f (snd e)) else e) cs.

(** [response.ok] *)
Definition res_ok (r : SwResponse) : bool :=
  (200 <=? res_status r) && (res_status r <? 300).

Definition http_scheme (u : Url) : bool :=
  String.eqb (scheme u) "http" || String.eqb (scheme u) "https".

(** [cache.put] accepts the pair: the request is a GET over http(s), the
    response is not partial (206) and its [Vary] does not list [*]. *)
Definition storable (req : SwRequest) (res : SwResponse) : bool :=
  is_get req && http_scheme (request_url req)
  && negb (res_status res =? 206) && vary_known res.

(** [caches.open(name).then(cache => cache.put(request, response))]: a put
    that is not accepted rejects and changes nothing. *)
Definition open_and_put (name : string) (req : SwRequest) (res : SwResponse)
    (cs : CacheStorage) : CacheStorage :=
  let cs' := caches_open name cs in
  if storable req res then update_cache name (fun c => cache_put c req res) cs'
  else cs'.

(** [fetch(request)] *)
Definition sw_fetch (net : Network) (req : SwRequest) (w : SwWorld)
  : option SwResponse * SwWorld :=
  (net (List.length (fetched w)) req,
   {| storage := storage w; fetched := (fetched w ++ [req])%list |}).

(** What [e.respondWith] is settled with: a response, or the failure of the
    promise (or [undefined]), which the page sees as a network error. *)
Inductive Responded : Type :=
| Served (r : SwResponse)
| Failed.

(** The test of the fetch handler: the path starts with [/api/] or the
    hostname is not that of [self.location]. *)
Definition network_first (own : Url) (req : SwRequest) : bool :=
  String.prefix "/api/" (pathname (request_url req))
  || negb (String.eqb (hostname (request_url req)) (hostname own)).

(** The [fetch] listener. *)
Definition on_fetch (net : Network) (own : Url) (req : SwRequest) (w : SwWorld)
  : Responded * SwWorld :=
  if network_first own req then
    match sw_fetch net req w with
    | (Some res, w') => (Served res, w')
    | (None, w') =>
        match caches_match (storage w') req with
        | Some cached => (Served cached, w')
        | None => (Failed, w')
        end
    end
  else
    match caches_match (storage w) req with
    | Some cached => (Served cached, w)
    | None =>
        match sw_fetch net req w with
        | (Some res, w') =>
            (Served res,
             {| storage := open_and_put CACHE_NAME req res (storage w');
                fetched := fetched w' |})
        | (None, w') => (Failed, w')
        end
    end.

(** The [activate] listener: every cache whose name is not [CACHE_NAME] is
    deleted. *)
Definition on_activate (w : SwWorld) : SwWorld :=
  let keys := caches_keys (storage w) in
  let stale := filter (fun k => negb (String.eqb k CACHE_NAME)) keys in
  {| storage := fold_left (fun cs k => caches_delete k cs) stale (storage w);
     fetched := fetched w |}.

(** The request [cache.addAll] makes for an asset: the path resolved against
    the worker's location, a GET without headers of its own. *)
Definition asset_request (own : Url) (path : string) : SwRequest :=
  {| request_url := {| scheme := scheme own; hostname := hostname own;
                       port := port own; pathname := path; search := EmptyString |};
     is_get := true;
     request_headers := [] |}.

Fixpoint fetch_all (net : Network) (reqs : list SwRequest) (w : SwWorld)
  : list (SwRequest * option SwResponse) * SwWorld :=
  match reqs with
  | [] => ([], w)
  | req :: reqs' =>
      let (res, w1) := sw_fetch net req w in
      let (rest, w2) := fetch_all net reqs' w1 in
      ((req, res) :: rest, w2)
  end.

(** [addAll] accepts the fetched response: the fetch succeeded with an ok
    status other than 206 and a [Vary] that does not list [*]. *)
Definition fetched_ok (x : SwRequest * option SwResponse) : bool :=
  match snd x with
  | Some r => res_ok r && negb (res_status r =? 206) && vary_known r
  | None => false
  end.

Definition put_fetched (c : Cache) (x : SwRequest * option SwResponse) : Cache :=
  match snd x with
  | Some r => cache_put c (fst x) r
  | None => c
  end.

(** [cache.addAll(requests)] on the cache [name]: all the requests are
    fetched; the responses are stored only when every one of them is
    accepted, and otherwise nothing is stored and the promise rejects. *)
Definition add_all (net : Network) (name : string) (reqs : list SwRequest)
    (w : SwWorld) : bool * SwWorld :=
  let (results, w1) := fetch_all net reqs w in
  if forallb fetched_ok results then
    (true, {| storage := update_cache name (fun c => fold_left put_fetched results c)
                           (storage w1);
              fetched := fetched w1 |})
  else (false, w1).

(** The [install] listener; the boolean tells whether the promise given to
    [waitUntil] was fulfilled. *)
Definition on_install (net : Network) (own : Url) (w : SwWorld) : bool * SwWorld :=
  add_all net CACHE_NAME (map (asset_request own) STATIC_ASSETS)
    {| storage := caches_open CACHE_NAME (storage w); fetched := fetched w |}.

Inductive Event : Type :=
| Install
| Activate
| Fetch (req : SwRequest).

Definition handle (net : Network) (own : Url) (w : SwWorld) (ev : Event) : SwWorld :=
  match ev with
  | Install => snd (on_install net own w)
  | Activate => on_activate w
  | Fetch req => snd (on_fetch net own req w)
  end.

(** The worker's world after a sequence of events, from a world without any
    cache. *)
Definition run (net : Network) (own : Url) (events : list Event) : SwWorld :=
  fold_left (handle net own) events {| storage := []; fetched := [] |}.

(** Every stored request is for the worker's own hostname and for a path
    outside [/api/]. *)
Definition static_only (own : Url) (cs : CacheStorage) : Prop :=
  forall name c q r,
    In (name, c) cs -> In (q, r) c ->
    hostname (request_url q) = hostname own
    /\ String.prefix "/api/" (pathname (request_url q)) = false.

(** The URL of the request is that of one of the static assets. *)
Definition is_asset (own : Url) (req : SwRequest) : bool :=
  existsb (fun path => url_eqb (request_url (asset_request own path)) (request_url req))
    STATIC_ASSETS.

(** In every cache named [CACHE_NAME], of which there is one, the request
    [req] is answered [res]; in no other cache is it answered at all. *)
Definition kept (req : SwRequest) (res : SwResponse) (cs : CacheStorage) : Prop :=
  (forall name c,
      In (name, c) cs ->
      cache_match c req = if String.eqb name CACHE_NAME then Some res else None)
  /\ existsb (fun e => String.eqb (fst e) CACHE_NAME) cs = true.

End Sw.

Module SwScenario.

(** The worker's location. *)
Definition location : Sw.Url :=
  {| Sw.scheme := "https"; Sw.hostname := "app.example"; Sw.port := EmptyString;
     Sw.pathname := "/sw.js"; Sw.search := EmptyString |}.

Definition empty : Sw.SwWorld := {| Sw.storage := []; Sw.fetched := [] |}.

(** A GET for [/logo.png] on the worker's origin. *)
Definition logo : Sw.SwRequest := Sw.asset_request location "/logo.png".

(** A GET for [/api/quote?symbols=AAPL] on the worker's origin. *)
Definition quote : Sw.SwRequest :=
  {| Sw.request_url := {| Sw.scheme := "https"; Sw.hostname := "app.example";
                          Sw.port := EmptyString; Sw.pathname := "/api/quote";
                          Sw.search := "?symbols=AAPL" |};
     Sw.is_get := true;
     Sw.request_headers := [] |}.

Definition plain (status : Z) (body : string) : Sw.SwResponse :=
  {| Sw.res_status := status; Sw.res_vary := []; Sw.res_body := body |}.

(** A world with the cache of an older version next to the current one. *)
Definition two_versions : Sw.SwWorld :=
  {| Sw.storage := [("stockai-v0", [(logo, plain 200 "old")]);
                    ("stockai-v1", [(logo, plain 200 "new")])];
     Sw.fetched := [] |}.

(** A GET for [/logo.png] on the worker's hostname, on port 8080. *)
Definition other_port : Sw.SwRequest :=
  {| Sw.request_url := {| Sw.scheme := "https"; Sw.hostname := "app.example";
                          Sw.port := "8080"; Sw.pathname := "/logo.png";
                          Sw.search := EmptyString |};
     Sw.is_get := true;
     Sw.request_headers := [] |}.

(** A network that answers every fetch with a 404. *)
Definition not_found : Sw.Network := fun _ _ => Some (plain 404 "Not Found").

(** A network that answers every fetch with a 200. *)
Definition online : Sw.Network := fun _ _ => Some (plain 200 "ok").

(** A network that fails every fetch. *)
Definition offline : Sw.Network := fun _ _ => None.

End SwScenario.

Module RouteScenario.

(** A landing page without [Set-Cookie], then a token. *)
Definition no_cookies : Env :=
  Scenario.env_of [Scenario.ok None "<html>"; Scenario.ok None "abc123"].

(** The page request is answered with a 403. *)
Definition page_forbidden : Env := Scenario.env_of [Scenario.refused 403].

End RouteScenario.

Example includes_query : JsString.includes "https://x/y?range=6mo" "?" = true.
Proof. reflexivity. Qed.

Example includes_no_query : JsString.includes "https://x/y" "?" = false.
Proof. reflexivity. Qed.

Example split_cookie :
  JsString.split ";" "A=1; Path=/; Secure" = ["A=1"; " Path=/"; " Secure"].
Proof. reflexivity. Qed.

Example encode_special : Uri.encode "a&b+c/d" = "a%26b%2Bc%2Fd".
Proof. reflexivity. Qed.

(** ** The equations of [getCrumb] *)

Section GetCrumb.

Variable env : Env.

Lemma cache_is_fresh_eq (w : World) :
  cache_is_fresh env w = (Return (is_fresh env w), checked w).
Proof.
  unfold cache_is_fresh, is_fresh, checked, bind, read, date_now, ret.
  destruct w as [c n tr out]; cbn.
  destruct (truthy (_crumb c)); reflexivity.
Qed.

Lemma getCrumb_cached (w : World) :
  is_fresh env w = true ->
  getCrumb env w
  = (Return {| crumb := _crumb (creds w); cookies := _cookies (creds w) |},
     checked w).
Proof.
  intros Hf. unfold getCrumb, bind at 1.
  rewrite cache_is_fresh_eq, Hf. reflexivity.
Qed.

Lemma getCrumb_landing_fails (w : World) (e : AxiosError) :
  is_fresh env w = false ->
  outcome env (checked w) landing_request = Rejected e ->
  getCrumb env w
  = (Throw e, logged (checked w) (landing_request, Rejected e)).
Proof.
  intros Hf H1. unfold getCrumb, bind at 1.
  rewrite cache_is_fresh_eq, Hf.
  unfold bind at 1, axios_get. unfold outcome in H1. rewrite H1.
  reflexivity.
Qed.

Lemma getCrumb_token_fails (w : World) (r1 : Response) (e : AxiosError) :
  is_fresh env w = false ->
  outcome env (checked w) landing_request = Resolved r1 ->
  outcome env (cookies_stored w r1) (crumb_request (harvested r1)) = Rejected e ->
  getCrumb env w
  = (Throw e,
     logged (cookies_stored w r1) (crumb_request (harvested r1), Rejected e)).
Proof.
  intros Hf H1 H2. unfold getCrumb, bind at 1.
  rewrite cache_is_fresh_eq, Hf.
  unfold bind at 1, axios_get at 1. unfold outcome in H1. rewrite H1.
  unfold bind, set_cookies, write, read, axios_get; cbn.
  unfold outcome in H2; cbn in H2. fold (harvested r1). rewrite H2.
  reflexivity.
Qed.

Lemma getCrumb_acquires (w : World) (r1 r2 : Response) :
  is_fresh env w = false ->
  outcome env (checked w) landing_request = Resolved r1 ->
  outcome env (cookies_stored w r1) (crumb_request (harvested r1)) = Resolved r2 ->
  getCrumb env w
  = (Return {| crumb := data r2; cookies := harvested r1 |},
     acquired env w r1 r2).
Proof.
  intros Hf H1 H2. unfold getCrumb, bind at 1.
  rewrite cache_is_fresh_eq, Hf.
  unfold bind at 1, axios_get at 1. unfold outcome in H1. rewrite H1.
  unfold bind, set_cookies, write, read, axios_get; cbn.
  unfold outcome in H2; cbn in H2. fold (harvested r1). rewrite H2.
  cbn. unfold acquired. rewrite <- app_assoc. reflexivity.
Qed.

Lemma getCrumb_cases (w : World) : crumb_run env w (getCrumb env w).
Proof.
  destruct (is_fresh env w) eqn:Hf.
  - rewrite getCrumb_cached by assumption. now constructor.
  - destruct (outcome env (checked w) landing_request) as [r1 | e] eqn:H1.
    + destruct (outcome env (cookies_stored w r1) (crumb_request (harvested r1)))
        as [r2 | e] eqn:H2.
      * rewrite (getCrumb_acquires w r1 r2) by assumption. now constructor.
      * rewrite (getCrumb_token_fails w r1 e) by assumption. now constructor.
    + rewrite (getCrumb_landing_fails w e) by assumption. now constructor.
Qed.

Lemma issued_app (w w' : World) (xs : list Exchange) :
  trace w' = (trace w ++ xs)%list -> issued w w' = xs.
Proof.
  intros H. unfold issued. rewrite H.
  rewrite skipn_app, skipn_all, Nat.sub_diag. reflexivity.
Qed.

Lemma is_fresh_true (w : World) :
  is_fresh env w = true <->
  truthy (_crumb (creds w)) = true
  /\ Date_now env (ticks w) - _crumbTime (creds w) < CRUMB_TTL.
Proof.
  unfold is_fresh. rewrite andb_true_iff, Z.ltb_lt. reflexivity.
Qed.

Lemma is_fresh_false (w : World) :
  is_fresh env w = false <->
  truthy (_crumb (creds w)) = false
  \/ CRUMB_TTL <= Date_now env (ticks w) - _crumbTime (creds w).
Proof.
  unfold is_fresh. rewrite andb_false_iff, Z.ltb_ge. reflexivity.
Qed.

End GetCrumb.

(** ** String facts *)

Lemma first_split_before (sep : ascii) (s : string) :
  exists segs, JsString.split sep s = JsString.before sep s :: segs.
Proof.
  induction s as [| c s IH]; cbn.
  - now exists [].
  - destruct (Ascii.eqb c sep).
    + now eexists.
    + destruct IH as [segs ->]. now eexists.
Qed.

Lemma first_split (sep : ascii) (s : string) :
  JsString.first (JsString.split sep s) = JsString.before sep s.
Proof.
  destruct (first_split_before sep s) as [segs ->]. reflexivity.
Qed.

Lemma before_spec (sep : ascii) (s : string) :
  JsString.mem sep (JsString.before sep s) = false
  /\ exists rest, s = JsString.before sep s ++ rest
                  /\ (rest = EmptyString \/ exists r, rest = String sep r).
Proof.
  induction s as [| c s [IHm [rest [IHe IHr]]]]; cbn.
  - split; [reflexivity |]. exists EmptyString. auto.
  - destruct (Ascii.eqb c sep) eqn:E; cbn.
    + split; [reflexivity |]. apply Ascii.eqb_eq in E; subst c.
      exists (String sep s). split; [reflexivity | right; now eexists].
    + rewrite E, IHm. split; [reflexivity |].
      exists rest. split; [now rewrite <- IHe | assumption].
Qed.

Lemma cookie_header_before (rawCookies : list string) :
  cookie_header rawCookies
  = String.concat "; " (map (JsString.before ";") rawCookies).
Proof.
  unfold cookie_header, JsString.join. f_equal.
  apply map_ext. intros c. apply first_split.
Qed.

(** ** The credential cache *)

(** C4, as amended: in every credential state whose token is a non-empty
    string (truthy) and whose age [now - acquiredAt] is below the TTL of one
    hour, [getCrumb] returns the cached pair, leaves the credential state as
    it was and issues no request. *)
Theorem freshness_gate (env : Env) (w : World) :
  truthy (_crumb (creds w)) = true ->
  Date_now env (ticks w) - _crumbTime (creds w) < CRUMB_TTL ->
  fst (getCrumb env w)
  = Return {| crumb := _crumb (creds w); cookies := _cookies (creds w) |}
  /\ creds (snd (getCrumb env w)) = creds w
  /\ trace (snd (getCrumb env w)) = trace w.
Proof.
  intros Ht Hage.
  rewrite getCrumb_cached by (apply is_fresh_true; auto).
  repeat split.
Qed.

Lemma freshness_gate_witness :
  fst (getCrumb Scenario.scenario_a Scenario.cached)
  = Return {| crumb := JStr "abc123"; cookies := JStr "A=1" |}
  /\ creds (snd (getCrumb Scenario.scenario_a Scenario.cached)) = creds Scenario.cached
  /\ trace (snd (getCrumb Scenario.scenario_a Scenario.cached)) = [].
Proof.
  apply (freshness_gate Scenario.scenario_a Scenario.cached).
  - reflexivity.
  - vm_compute. reflexivity.
Defined.

(** C4, as stated, fails for a token that is present but empty: one second
    after it was stored, well within the TTL, [getCrumb] still runs the two
    requests of the acquisition and overwrites the credential state. *)
Lemma freshness_gate_empty_token :
  present (_crumb (creds Scenario.empty_token)) = true
  /\ Date_now Scenario.scenario_a (ticks Scenario.empty_token)
     - _crumbTime (creds Scenario.empty_token) < CRUMB_TTL
  /\ List.length (issued Scenario.empty_token
                    (snd (getCrumb Scenario.scenario_a Scenario.empty_token))) = 2%nat
  /\ creds (snd (getCrumb Scenario.scenario_a Scenario.empty_token))
     <> creds Scenario.empty_token.
Proof.
  split; [reflexivity |]. split; [vm_compute; reflexivity |].
  split; [vm_compute; reflexivity |].
  vm_compute. discriminate.
Qed.

Lemma stale_starts_with_landing (env : Env) (w : World) :
  is_fresh env w = false ->
  exists s rest,
    issued w (snd (getCrumb env w)) = (landing_request, s) :: rest.
Proof.
  intros Hf.
  destruct (getCrumb_cases env w) as [Hc | e _ H1 | r1 e _ H1 H2 | r1 r2 _ H1 H2];
    try congruence; cbn [snd].
  - exists (Rejected e), []. now apply issued_app.
  - exists (Resolved r1), [(crumb_request (harvested r1), Rejected e)].
    apply issued_app. cbn. now rewrite <- app_assoc.
  - exists (Resolved r1), [(crumb_request (harvested r1), Resolved r2)].
    now apply issued_app.
Qed.

Lemma stale_return (env : Env) (w w' : World) (p : CrumbPair) :
  is_fresh env w = false ->
  getCrumb env w = (Return p, w') ->
  exists r1 r2,
    issued w w' = [(landing_request, Resolved r1);
                   (crumb_request (harvested r1), Resolved r2)]
    /\ p = {| crumb := data r2; cookies := harvested r1 |}.
Proof.
  intros Hf H.
  destruct (getCrumb_cases env w) as [Hc | e _ H1 | r1 e _ H1 H2 | r1 r2 _ H1 H2];
    try congruence.
  injection H as <- <-. exists r1, r2.
  split; [now apply issued_app | reflexivity].
Qed.

(** C5: in every credential state whose token is absent ([null], or more
    generally falsy), or whose age [now - acquiredAt] has reached the TTL,
    [getCrumb] starts with the landing-page request, and whenever it returns
    it has issued exactly the landing-page request followed by the token
    request carrying the cookies just harvested; the pair it returns is made
    of those two replies.  It does return whenever both requests resolve. *)
Theorem expiry_gate (env : Env) (w : World) :
  truthy (_crumb (creds w)) = false
  \/ CRUMB_TTL <= Date_now env (ticks w) - _crumbTime (creds w) ->
  (exists s rest,
      issued w (snd (getCrumb env w)) = (landing_request, s) :: rest)
  /\ (forall p w', getCrumb env w = (Return p, w') ->
      exists r1 r2,
        issued w w' = [(landing_request, Resolved r1);
                       (crumb_request (harvested r1), Resolved r2)]
        /\ p = {| crumb := data r2; cookies := harvested r1 |})
  /\ (forall r1 r2,
      outcome env (checked w) landing_request = Resolved r1 ->
      outcome env (cookies_stored w r1) (crumb_request (harvested r1)) = Resolved r2 ->
      exists p w', getCrumb env w = (Return p, w')).
Proof.
  intros Hstale.
  assert (Hf : is_fresh env w = false) by now apply is_fresh_false.
  split; [| split].
  - now apply stale_starts_with_landing.
  - intros p w' H. exact (stale_return env w w' p Hf H).
  - intros r1 r2 H1 H2. do 2 eexists.
    exact (getCrumb_acquires env w r1 r2 Hf H1 H2).
Qed.

Lemma expiry_gate_witness :
  exists r1 r2,
    issued initial (snd (getCrumb Scenario.scenario_a initial))
    = [(landing_request, Resolved r1); (crumb_request (harvested r1), Resolved r2)]
    /\ fst (getCrumb Scenario.scenario_a initial)
       = Return {| crumb := data r2; cookies := harvested r1 |}.
Proof.
  destruct (expiry_gate Scenario.scenario_a initial (or_introl eq_refl)) as [_ [H _]].
  destruct (H (mkPair (JStr "abc123") (JStr "A=1"))
              (snd (getCrumb Scenario.scenario_a initial)) eq_refl)
    as [r1 [r2 [Hi Hp]]].
  exists r1, r2. split; [exact Hi | ].
  change (fst (getCrumb Scenario.scenario_a initial))
    with (Return (mkPair (JStr "abc123") (JStr "A=1"))).
  now rewrite Hp.
Defined.

(** C6: the invalidation [_crumb = null] clears the token and nothing else
    (the cookie header and the acquisition time are as before, and no request
    is issued).  In the resulting state the freshness test of [getCrumb]
    fails and the next call re-runs the whole acquisition: it sends the
    landing-page request; if that fails it throws; otherwise it stores the
    cookies harvested from that reply and sends the token request with them;
    if that fails it throws; otherwise it stores and returns the new token
    with the new cookies and the time of the clock.  The cookies kept through
    the invalidation are never presented nor returned. *)
Theorem invalidate_clears_token_only (env : Env) (w : World) :
  invalidate w = (Return tt, invalidated w)
  /\ _crumb (creds (invalidated w)) = JNull
  /\ _cookies (creds (invalidated w)) = _cookies (creds w)
  /\ _crumbTime (creds (invalidated w)) = _crumbTime (creds w)
  /\ trace (invalidated w) = trace w
  /\ is_fresh env (invalidated w) = false
  /\ (exists s rest,
      issued (invalidated w) (snd (getCrumb env (invalidated w)))
      = (landing_request, s) :: rest)
  /\ (forall e,
      outcome env (invalidated w) landing_request = Rejected e ->
      getCrumb env (invalidated w)
      = (Throw e, logged (invalidated w) (landing_request, Rejected e)))
  /\ (forall r1 e,
      outcome env (invalidated w) landing_request = Resolved r1 ->
      outcome env (cookies_stored (invalidated w) r1) (crumb_request (harvested r1))
      = Rejected e ->
      getCrumb env (invalidated w)
      = (Throw e,
         logged (cookies_stored (invalidated w) r1)
           (crumb_request (harvested r1), Rejected e)))
  /\ (forall r1 r2,
      outcome env (invalidated w) landing_request = Resolved r1 ->
      outcome env (cookies_stored (invalidated w) r1) (crumb_request (harvested r1))
      = Resolved r2 ->
      getCrumb env (invalidated w)
      = (Return {| crumb := data r2; cookies := harvested r1 |},
         {| creds := {| _crumb := data r2;
                        _cookies := harvested r1;
                        _crumbTime := Date_now env (ticks w) |};
            ticks := S (ticks w);
            trace := (trace w ++ [(landing_request, Resolved r1);
                                  (crumb_request (harvested r1), Resolved r2)])%list;
            console := (console w ++ ["✅ Yahoo Finance crumb 갱신 완료"])%list |})).
Proof.
  do 6 (split; [reflexivity |]).
  split; [exact (stale_starts_with_landing env (invalidated w) eq_refl) |].
  split; [| split].
  - intros e H1. exact (getCrumb_landing_fails env (invalidated w) e eq_refl H1).
  - intros r1 e H1 H2.
    exact (getCrumb_token_fails env (invalidated w) r1 e eq_refl H1 H2).
  - intros r1 r2 H1 H2.
    exact (getCrumb_acquires env (invalidated w) r1 r2 eq_refl H1 H2).
Qed.

Lemma invalidate_clears_token_only_witness :
  fst (getCrumb Scenario.scenario_c (invalidated Scenario.cached))
  = Return {| crumb := JStr "t1"; cookies := JStr "A=1" |}
  /\ map (fun x => url (fst x))
       (trace (snd (getCrumb Scenario.scenario_c (invalidated Scenario.cached))))
     = [LANDING_URL; GETCRUMB_URL].
Proof.
  pose (r1 := {| status := 200; set_cookie := Some ["A=1"]; data := JStr "<html>" |}).
  pose (r2 := {| status := 200; set_cookie := None; data := JStr "t1" |}).
  destruct (invalidate_clears_token_only Scenario.scenario_c Scenario.cached)
    as [_ [_ [_ [_ [_ [_ [_ [_ [_ H]]]]]]]]].
  specialize (H r1 r2 eq_refl eq_refl).
  split.
  - apply (f_equal fst) in H. exact H.
  - apply (f_equal (fun x => map (fun y => url (fst y)) (trace (snd x)))) in H.
    exact H.
Defined.

(** ** Failures of the acquisition *)

Lemma settle_rejected (parse : string -> option jsval) (req : Request)
    (u : Upstream) (e : AxiosError) :
  settle parse req u = Rejected e <->
  (exists msg, u = Unreachable msg /\ e = NetworkError msg)
  \/ (u = TimedOut /\ e = TimeoutError (timeout req))
  \/ (exists r, u = Replied r /\ ~ (200 <= reply_status r < 300)
                 /\ e = BadStatus (axios_response parse r)).
Proof.
  destruct u as [msg | | r]; cbn.
  - split.
    + intros [= <-]. left. now exists msg.
    + intros [[m [[= <-] ->]] | [[H _] | [r [H _]]]]; try discriminate. reflexivity.
  - split.
    + intros [= <-]. right. left. auto.
    + intros [[m [H _]] | [[_ ->] | [r [H _]]]]; try discriminate. reflexivity.
  - destruct ((200 <=? reply_status r) && (reply_status r <? 300)) eqn:E.
    + split; [discriminate |].
      intros [[m [H _]] | [[H _] | [r' [[= <-] [Hn _]]]]]; try discriminate.
      apply andb_true_iff in E. destruct E as [E1 E2].
      apply Z.leb_le in E1. apply Z.ltb_lt in E2. lia.
    + split.
      * intros [= <-]. right. right. exists r. repeat split.
        apply andb_false_iff in E. destruct E as [E | E].
        -- apply Z.leb_gt in E. lia.
        -- apply Z.ltb_ge in E. lia.
      * intros [[m [H _]] | [[H _] | [r' [[= <-] [_ ->]]]]]; try discriminate.
        reflexivity.
Qed.

(** C1, as amended: when the acquisition runs and one of its two requests
    is rejected, [getCrumb] throws that very error; a request is rejected
    exactly on a network error, a timeout or a reply whose status is outside
    2xx.  If the landing-page request fails the credential
    state is exactly as before the call.  If the token request fails the
    token and the acquisition time are as before the call, and the cookie
    header has already been replaced by the one harvested from the landing
    page. *)
Theorem failed_acquisition (env : Env) (w : World) :
  is_fresh env w = false ->
  (forall e,
      outcome env (checked w) landing_request = Rejected e ->
      fst (getCrumb env w) = Throw e
      /\ creds (snd (getCrumb env w)) = creds w)
  /\ (forall r1 e,
      outcome env (checked w) landing_request = Resolved r1 ->
      outcome env (cookies_stored w r1) (crumb_request (harvested r1)) = Rejected e ->
      fst (getCrumb env w) = Throw e
      /\ creds (snd (getCrumb env w))
         = {| _crumb := _crumb (creds w);
              _cookies := harvested r1;
              _crumbTime := _crumbTime (creds w) |})
  /\ (forall req u e,
      settle (JSON_parse env) req u = Rejected e <->
      (exists msg, u = Unreachable msg /\ e = NetworkError msg)
      \/ (u = TimedOut /\ e = TimeoutError (timeout req))
      \/ (exists r, u = Replied r /\ ~ (200 <= reply_status r < 300)
                     /\ e = BadStatus (axios_response (JSON_parse env) r))).
Proof.
  intros Hf. split; [| split].
  - intros e H1. rewrite (getCrumb_landing_fails env w e) by assumption.
    split; reflexivity.
  - intros r1 e H1 H2. rewrite (getCrumb_token_fails env w r1 e) by assumption.
    split; reflexivity.
  - exact (settle_rejected (JSON_parse env)).
Qed.

Lemma failed_acquisition_witness :
  fst (getCrumb Scenario.token_refused Scenario.cached_long_ago)
  = Throw (BadStatus {| status := 500; set_cookie := None; data := JStr "" |})
  /\ creds (snd (getCrumb Scenario.token_refused Scenario.cached_long_ago))
     = {| _crumb := JStr "abc123"; _cookies := JStr "B=2"; _crumbTime := - CRUMB_TTL |}.
Proof.
  apply (proj1 (proj2 (failed_acquisition Scenario.token_refused
                         Scenario.cached_long_ago eq_refl))
           {| status := 200; set_cookie := Some ["B=2; Path=/"]; data := JStr "<html>" |});
    reflexivity.
Defined.

(** C1, as stated, fails when the token request is the one that fails: the
    call throws, and the cookie header of the credential state is no longer
    the one it held before the call. *)
Lemma failed_acquisition_overwrites_cookies :
  fst (getCrumb Scenario.token_refused Scenario.cached_long_ago)
  = Throw (BadStatus {| status := 500; set_cookie := None; data := JStr "" |})
  /\ _cookies (creds Scenario.cached_long_ago) = JStr "A=1"
  /\ _cookies (creds (snd (getCrumb Scenario.token_refused Scenario.cached_long_ago)))
     = JStr "B=2"
  /\ creds (snd (getCrumb Scenario.token_refused Scenario.cached_long_ago))
     <> creds Scenario.cached_long_ago.
Proof.
  repeat split. vm_compute. discriminate.
Qed.

(** ** What an acquisition stores and returns *)

Lemma transformResponse_cases (parse : string -> option jsval) (body : string) :
  (body = EmptyString -> transformResponse parse body = JStr EmptyString)
  /\ (forall v, body <> EmptyString -> parse body = Some v ->
                transformResponse parse body = v)
  /\ (body <> EmptyString -> parse body = None ->
      transformResponse parse body = JStr body).
Proof.
  unfold transformResponse. repeat split.
  - intros ->. reflexivity.
  - intros v Hb Hp. apply String.eqb_neq in Hb. now rewrite Hb, Hp.
  - intros Hb Hp. apply String.eqb_neq in Hb. now rewrite Hb, Hp.
Qed.

(** C8, as amended: a successful acquisition returns and stores, as cookie
    header, the [Set-Cookie] values of the landing-page reply, each cut before
    its first [;] and joined with [; ], and as token the data axios delivers
    for the token endpoint's reply.  That data is the body itself when the
    body is empty or is not valid JSON, and the value [JSON.parse] gives
    otherwise.  The cut is the longest prefix without [;]: what follows it is
    empty or starts with [;].  With [Set-Cookie: A=1] and body [abc123],
    which is not JSON, the call returns [{crumb: "abc123", cookies: "A=1"}]. *)
Theorem acquisition_result :
  (forall env w r1 r2,
      is_fresh env w = false ->
      outcome env (checked w) landing_request = Resolved r1 ->
      outcome env (cookies_stored w r1) (crumb_request (harvested r1)) = Resolved r2 ->
      let header := String.concat "; " (map (JsString.before ";") (raw_cookies r1)) in
      fst (getCrumb env w) = Return {| crumb := data r2; cookies := JStr header |}
      /\ _crumb (creds (snd (getCrumb env w))) = data r2
      /\ _cookies (creds (snd (getCrumb env w))) = JStr header)
  /\ (forall env w req reply r,
      upstream env (List.length (trace w)) req = Replied reply ->
      outcome env w req = Resolved r ->
      (reply_body reply = EmptyString -> data r = JStr EmptyString)
      /\ (forall v, reply_body reply <> EmptyString ->
                    JSON_parse env (reply_body reply) = Some v -> data r = v)
      /\ (reply_body reply <> EmptyString ->
          JSON_parse env (reply_body reply) = None -> data r = JStr (reply_body reply)))
  /\ (forall c,
      JsString.mem ";" (JsString.before ";" c) = false
      /\ exists rest, c = JsString.before ";" c ++ rest
                      /\ (rest = EmptyString \/ exists r, rest = String ";" r))
  /\ fst (getCrumb Scenario.scenario_a initial)
     = Return {| crumb := JStr "abc123"; cookies := JStr "A=1" |}.
Proof.
  split; [| split; [| split]].
  - intros env w r1 r2 Hf H1 H2 header.
    rewrite (getCrumb_acquires env w r1 r2) by assumption.
    subst header. rewrite <- cookie_header_before. repeat split.
  - intros env w req reply r Hu Ho. unfold outcome in Ho. rewrite Hu in Ho.
    cbn [settle] in Ho.
    destruct ((200 <=? reply_status reply) && (reply_status reply <? 300));
      [| discriminate].
    injection Ho as <-. cbn [axios_response data].
    apply transformResponse_cases.
  - intros c. apply before_spec.
  - reflexivity.
Qed.

(** C8, as stated, fails when the body of the token endpoint is valid
    JSON: for the body [0] the token stored and returned is the number 0, not
    the text of the body. *)
Lemma token_is_not_the_raw_body :
  upstream Scenario.numeric_token 1 (crumb_request (JStr "A=1")) = Scenario.ok None "0"
  /\ JSON_parse Scenario.numeric_token "0" = Some (JNum Scenario.zero)
  /\ fst (getCrumb Scenario.numeric_token initial)
     = Return {| crumb := JNum Scenario.zero; cookies := JStr "A=1" |}
  /\ _crumb (creds (snd (getCrumb Scenario.numeric_token initial))) <> JStr "0".
Proof.
  split; [reflexivity |]. split; [reflexivity |]. split; [reflexivity |].
  vm_compute. discriminate.
Qed.

Lemma acquisition_result_witness :
  fst (getCrumb Scenario.two_cookies initial)
  = Return {| crumb := JStr "abc123"; cookies := JStr "A=1; B=2" |}
  /\ _crumb (creds (snd (getCrumb Scenario.two_cookies initial))) = JStr "abc123"
  /\ _cookies (creds (snd (getCrumb Scenario.two_cookies initial))) = JStr "A=1; B=2".
Proof.
  apply (proj1 acquisition_result Scenario.two_cookies initial
           {| status := 200;
              set_cookie := Some ["A=1; Path=/; Secure"; "B=2; HttpOnly"];
              data := JStr "<html>" |}
           {| status := 200; set_cookie := None; data := JStr "abc123" |});
    reflexivity.
Defined.

(** ** The equations of [yfRequest] *)

Section Forward.

Variable env : Env.
Variable target : string.

Lemma yfRequest_acquisition_fails (w w1 : World) (e : AxiosError) :
  getCrumb env w = (Throw e, w1) ->
  yfRequest env target w = (Throw e, w1).
Proof.
  intros H. unfold yfRequest, bind at 1. now rewrite H.
Qed.

Lemma yfRequest_succeeds (w w1 : World) (p : CrumbPair) (r : Response) :
  getCrumb env w = (Return p, w1) ->
  outcome env w1 (attempt target p) = Resolved r ->
  yfRequest env target w
  = (Return (data r), logged w1 (attempt target p, Resolved r)).
Proof.
  intros H H1. unfold yfRequest, bind at 1. rewrite H.
  unfold try_catch, bind, axios_get.
  fold (attempt target p). unfold outcome in H1. rewrite H1. reflexivity.
Qed.

Lemma yfRequest_other_failure (w w1 : World) (p : CrumbPair) (e : AxiosError) :
  getCrumb env w = (Return p, w1) ->
  outcome env w1 (attempt target p) = Rejected e ->
  auth_rejected e = false ->
  yfRequest env target w
  = (Throw e, logged w1 (attempt target p, Rejected e)).
Proof.
  intros H H1 Ha. unfold yfRequest, bind at 1. rewrite H.
  unfold try_catch, bind at 1, axios_get at 1.
  fold (attempt target p). unfold outcome in H1. rewrite H1.
  unfold auth_rejected in Ha. rewrite Ha. reflexivity.
Qed.

Lemma retry_eq (w : World) :
  bind invalidate
    (fun _ =>
       bind (getCrumb env)
         (fun p2 =>
            bind (axios_get env (attempt target p2))
              (fun res2 => ret (data res2)))) w
  = match getCrumb env (invalidated w) with
    | (Return p2, w4) =>
        (body_of (outcome env w4 (attempt target p2)),
         logged w4 (attempt target p2, outcome env w4 (attempt target p2)))
    | (Throw e', w4) => (Throw e', w4)
    end.
Proof.
  unfold bind at 1. change (invalidate w) with (Return tt, invalidated w).
  cbv beta iota. unfold bind at 1.
  destruct (getCrumb env (invalidated w)) as [[p2 | e'] w4]; [| reflexivity].
  unfold bind, axios_get, ret, outcome, logged.
  destruct (settle _ _); reflexivity.
Qed.

Lemma yfRequest_auth_rejected (w w1 : World) (p : CrumbPair) (e : AxiosError) :
  getCrumb env w = (Return p, w1) ->
  outcome env w1 (attempt target p) = Rejected e ->
  auth_rejected e = true ->
  yfRequest env target w
  = match getCrumb env (invalidated (logged w1 (attempt target p, Rejected e))) with
    | (Return p2, w4) =>
        (body_of (outcome env w4 (attempt target p2)),
         logged w4 (attempt target p2, outcome env w4 (attempt target p2)))
    | (Throw e', w4) => (Throw e', w4)
    end.
Proof.
  intros H H1 Ha. unfold yfRequest, bind at 1. rewrite H.
  unfold try_catch, bind at 1, axios_get at 1.
  fold (attempt target p). unfold outcome in H1. rewrite H1.
  unfold auth_rejected in Ha. rewrite Ha.
  apply (retry_eq (logged w1 (attempt target p, Rejected e))).
Qed.

End Forward.

(** ** Counting the requests to the data endpoint *)

Lemma append_assoc (a b c : string) : (a ++ b) ++ c = a ++ (b ++ c).
Proof.
  induction a as [| x a IH]; cbn; [reflexivity | now rewrite IH].
Qed.

Lemma prefix_append (pat rest : string) : String.prefix pat (pat ++ rest) = true.
Proof.
  induction pat as [| x pat IH]; cbn.
  - now destruct rest.
  - destruct (ascii_dec x x); [assumption | congruence].
Qed.

Lemma includes_append (a pat rest : string) :
  JsString.includes (a ++ pat ++ rest) pat = true.
Proof.
  induction a as [| x a IH]; cbn.
  - assert (U : forall s, JsString.includes s pat = true \/ String.prefix pat s = false).
    { intros s. destruct (String.prefix pat s) eqn:E; [left | now right].
      destruct s; cbn [JsString.includes]; now rewrite E. }
    destruct (U (pat ++ rest)) as [H | H]; [exact H |].
    rewrite prefix_append in H. discriminate.
  - rewrite IH. apply orb_true_r.
Qed.

Lemma includes_char (c : ascii) (s : string) :
  JsString.includes s (String c EmptyString) = JsString.mem c s.
Proof.
  induction s as [| d s IH]; cbn; [reflexivity |].
  rewrite IH. f_equal.
  destruct (ascii_dec c d) as [-> | Hn].
  - rewrite Ascii.eqb_refl. now destruct s.
  - symmetry. apply Ascii.eqb_neq. congruence.
Qed.

Lemma with_crumb_includes (target sep : string) (c : jsval) :
  JsString.includes (with_crumb target sep c) "crumb=" = true.
Proof.
  unfold with_crumb. rewrite <- append_assoc. apply includes_append.
Qed.

Lemma attempt_is_data (target : string) (p : CrumbPair) (s : Settled) :
  is_data_request (attempt target p, s) = true.
Proof.
  unfold is_data_request, attempt; cbn [fst url data_request].
  pose proof (with_crumb_includes target (separator target) (crumb p)) as H.
  apply andb_true_iff; split; apply negb_true_iff, String.eqb_neq; intros E;
    rewrite E in H; vm_compute in H; discriminate.
Qed.

Lemma data_requests_app (xs ys : list Exchange) :
  data_requests (xs ++ ys) = (data_requests xs + data_requests ys)%nat.
Proof.
  unfold data_requests. now rewrite filter_app, length_app.
Qed.

Lemma grows_issued (w w' : World) (n : nat) :
  grows w w' n -> data_requests (issued w w') = n.
Proof.
  intros [xs [Ht Hn]]. unfold issued. rewrite Ht.
  now rewrite skipn_app, skipn_all, Nat.sub_diag.
Qed.

Lemma grows_refl (w w' : World) : trace w' = trace w -> grows w w' 0.
Proof.
  intros H. exists []. rewrite H, app_nil_r. split; reflexivity.
Qed.

Lemma grows_trans (w w1 w2 : World) (n m : nat) :
  grows w w1 n -> grows w1 w2 m -> grows w w2 (n + m).
Proof.
  intros [xs [H1 Hn]] [ys [H2 Hm]]. exists (xs ++ ys)%list.
  rewrite H2, H1, <- app_assoc, data_requests_app. auto.
Qed.

Lemma grows_attempt (w : World) (target : string) (p : CrumbPair) (s : Settled) :
  grows w (logged w (attempt target p, s)) 1.
Proof.
  exists [(attempt target p, s)]. split; [reflexivity |].
  unfold data_requests; cbn [filter]. now rewrite attempt_is_data.
Qed.

Lemma grows_getCrumb (env : Env) (w : World) :
  grows w (snd (getCrumb env w)) 0.
Proof.
  destruct (getCrumb_cases env w) as [_ | e _ _ | r1 e _ _ _ | r1 r2 _ _ _];
    cbn [snd].
  - now apply grows_refl.
  - now exists [(landing_request, Rejected e)].
  - exists [(landing_request, Resolved r1);
            (crumb_request (harvested r1), Rejected e)].
    split; [cbn; now rewrite <- app_assoc | reflexivity].
  - now exists [(landing_request, Resolved r1);
                (crumb_request (harvested r1), Resolved r2)].
Qed.


(** ** The first attempt and the retry *)

Lemma auth_rejected_spec (e : AxiosError) :
  auth_rejected e = true <->
  exists r, e = BadStatus r /\ (status r = 401 \/ status r = 403).
Proof.
  unfold auth_rejected, status_is.
  destruct e as [msg | ms | r]; cbn.
  - split; [discriminate | intros [r [H _]]; discriminate].
  - split; [discriminate | intros [r [H _]]; discriminate].
  - rewrite orb_true_iff, !Z.eqb_eq. split.
    + intros H. now exists r.
    + intros [r' [[= <-] H]]. exact H.
Qed.

Lemma attempt_url (target : string) (p : CrumbPair) :
  url (attempt target p)
  = target ++ (if JsString.mem "?" target then "&" else "?")
      ++ "crumb=" ++ Uri.encode (to_string (crumb p)).
Proof.
  unfold attempt, data_request, url, with_crumb, separator, encodeURIComponent.
  now rewrite includes_char.
Qed.




(** C3: when the first request of [yfRequest] is rejected with an error
    that is not a 401 or a 403 status (a 500, a timeout, a network error
    without any status), [yfRequest] throws that same error, sends nothing
    after the failed request, and leaves the credential state as [getCrumb]
    left it: the token is not invalidated. *)
Theorem no_retry_on_other_failure :
  (forall env target w p w1 e,
      getCrumb env w = (Return p, w1) ->
      outcome env w1 (attempt target p) = Rejected e ->
      auth_rejected e = false ->
      fst (yfRequest env target w) = Throw e
      /\ creds (snd (yfRequest env target w)) = creds w1
      /\ issued w1 (snd (yfRequest env target w)) = [(attempt target p, Rejected e)]
      /\ data_requests (issued w (snd (yfRequest env target w))) = 1%nat
      /\ (is_fresh env w = true -> creds (snd (yfRequest env target w)) = creds w))
  /\ (forall e,
      auth_rejected e = false <->
      ~ exists r, e = BadStatus r /\ (status r = 401 \/ status r = 403)).
Proof.
  split.
  - intros env target w p w1 e H H1 Ha.
    rewrite (yfRequest_other_failure env target w w1 p e H H1 Ha). cbn [fst snd].
    split; [reflexivity |]. split; [reflexivity |].
    split; [now apply issued_app |]. split.
    + apply grows_issued. apply (grows_trans w w1 _ 0 1).
      * pose proof (grows_getCrumb env w) as G. now rewrite H in G.
      * apply grows_attempt.
    + intros Hf. rewrite (getCrumb_cached env w Hf) in H.
      injection H as _ <-. reflexivity.
  - intros e. rewrite <- auth_rejected_spec.
    destruct (auth_rejected e); split; congruence.
Qed.

Lemma no_retry_on_other_failure_witness :
  fst (yfRequest Scenario.server_error Scenario.chart initial)
  = Throw (BadStatus {| status := 500; set_cookie := None; data := JStr "" |})
  /\ _crumb (creds (snd (yfRequest Scenario.server_error Scenario.chart initial)))
     = JStr "t1"
  /\ data_requests
       (issued initial (snd (yfRequest Scenario.server_error Scenario.chart initial)))
     = 1%nat.
Proof.
  destruct (proj1 no_retry_on_other_failure Scenario.server_error Scenario.chart
              initial (mkPair (JStr "t1") (JStr "A=1"))
              (snd (getCrumb Scenario.server_error initial))
              (BadStatus {| status := 500; set_cookie := None; data := JStr "" |})
              eq_refl eq_refl eq_refl)
    as [He [Hc [_ [Hn _]]]].
  split; [exact He |]. split; [| exact Hn].
  now rewrite Hc.
Defined.




(** ** Percent-encoding of the token *)







(** ** The pairing of token and cookies *)

Lemma same_cycle_app (tr xs : list Exchange) (p : CrumbPair) :
  same_cycle tr p -> same_cycle (tr ++ xs) p.
Proof.
  intros [i [r1 [r2 [H1 [H2 [Hk Hc]]]]]]. exists i, r1, r2.
  repeat split; try assumption.
  - rewrite nth_error_app1; [assumption |].
    apply nth_error_Some. congruence.
  - rewrite nth_error_app1; [assumption |].
    apply nth_error_Some. congruence.
Qed.

Lemma same_cycle_acquired (env : Env) (w : World) (r1 r2 : Response) :
  same_cycle (trace (acquired env w r1 r2))
    {| crumb := data r2; cookies := harvested r1 |}.
Proof.
  exists (List.length (trace w)), r1, r2. cbn [acquired trace].
  repeat split.
  - rewrite nth_error_app2 by lia. now rewrite Nat.sub_diag.
  - rewrite nth_error_app2 by lia.
    replace (S (List.length (trace w)) - List.length (trace w))%nat with 1%nat by lia.
    reflexivity.
Qed.

Section Pairing.

Variable env : Env.
Hypothesis clock_monotone : monotone (Date_now env).

Lemma stale_expired (w : World) :
  is_fresh env w = false ->
  truthy (_crumb (creds w)) = false \/ expired env (checked w).
Proof.
  intros Hf. apply is_fresh_false in Hf.
  destruct (truthy (_crumb (creds w))) eqn:Ht; [right | now left].
  destruct Hf as [Hf | Hf]; [discriminate |].
  intros k Hk. unfold checked in *; cbn [ticks creds] in *. rewrite Ht in Hk.
  pose proof (clock_monotone (ticks w) k ltac:(lia)). lia.
Qed.

Lemma paired_getCrumb (w : World) :
  paired env w -> paired env (snd (getCrumb env w)).
Proof.
  intros Hp.
  destruct (getCrumb_cases env w) as [Hf | e Hf _ | r1 e Hf _ _ | r1 r2 _ _ _];
    cbn [snd].
  - destruct Hp as [Hp | [Hp | Hp]]; [now left | right; left | right; right; exact Hp].
    intros k Hk. apply Hp. unfold checked in Hk; cbn [ticks] in Hk.
    destruct (truthy (_crumb (creds w))); lia.
  - destruct (stale_expired w Hf) as [H | H]; [now left | right; left; exact H].
  - destruct (stale_expired w Hf) as [H | H]; [now left | right; left; exact H].
  - right. right. apply same_cycle_acquired.
Qed.

Lemma paired_reachable (w : World) : reachable env w -> paired env w.
Proof.
  assert (Hreq : forall w req, paired env w -> paired env (snd (axios_get env req w))).
  { intros w0 req [IH | [IH | IH]]; [left | right; left | right; right].
    - unfold axios_get. now destruct (settle _ _ _).
    - unfold axios_get. now destruct (settle _ _ _).
    - unfold axios_get.
      destruct (settle _ _ _); cbn [snd trace]; now apply same_cycle_app. }
  induction 1 as [| w _ IH | w _ IH | w _ IH | w target p _ IH | w symbol k _ IH
                  | w line _ IH].
  - now left.
  - now apply paired_getCrumb.
  - destruct IH as [IH | [IH | IH]]; [now left | right; left | right; right; exact IH].
    intros k Hk. apply IH. cbn [snd date_now ticks] in Hk. lia.
  - now left.
  - now apply Hreq.
  - now apply Hreq.
  - exact IH.
Qed.

Lemma reachable_yfRequest (target : string) (w : World) :
  reachable env w -> reachable env (snd (yfRequest env target w)).
Proof.
  intros Hr.
  pose proof (reach_getCrumb env w Hr) as R1.
  destruct (getCrumb env w) as [[p | e0] w1] eqn:H; cbn [snd] in R1.
  2:{ now rewrite (yfRequest_acquisition_fails env target w w1 e0 H). }
  pose proof (reach_attempt env w1 target p R1) as R2.
  unfold axios_get in R2. fold (outcome env w1 (attempt target p)) in R2.
  destruct (outcome env w1 (attempt target p)) as [r | e] eqn:H1; cbn [snd] in R2.
  { now rewrite (yfRequest_succeeds env target w w1 p r H H1). }
  destruct (auth_rejected e) eqn:Ha.
  2:{ now rewrite (yfRequest_other_failure env target w w1 p e H H1 Ha). }
  rewrite (yfRequest_auth_rejected env target w w1 p e H H1 Ha).
  assert (R3 : reachable env (invalidated (logged w1 (attempt target p, Rejected e))))
    by exact (reach_invalidate env _ R2).
  pose proof (reach_getCrumb env _ R3) as R4.
  destruct (getCrumb env (invalidated (logged w1 (attempt target p, Rejected e))))
    as [[p2 | e'] w4]; cbn [snd] in *; [| exact R4].
  pose proof (reach_attempt env w4 target p2 R4) as R5.
  unfold axios_get in R5. fold (outcome env w4 (attempt target p2)) in R5.
  destruct (outcome env w4 (attempt target p2)); exact R5.
Qed.

(** The route handlers lead from reachable worlds to reachable worlds. *)
Lemma reachable_relay (message : AxiosError -> string) (label target : string)
    (w : World) :
  reachable env w ->
  reachable env
    (snd (try_catch
            (bind (yfRequest env target)
               (fun body => ret {| code := None; payload := Json body |}))
            (fun err =>
               bind (console_error message label err)
                 (fun _ => ret {| code := Some 500;
                                  payload := JsonError (message err) |})) w)).
Proof.
  intros Hr. pose proof (reachable_yfRequest target w Hr) as Hy.
  unfold try_catch, bind at 1.
  destruct (yfRequest env target w) as [[body | e] wy]; cbn [snd] in *; [exact Hy |].
  exact (reach_console env wy _ Hy).
Qed.

Lemma reachable_handlers (message : AxiosError -> string) (w : World) :
  reachable env w ->
  (forall symbol range interval includePrePost,
      reachable env (snd (apiChart env message symbol range interval includePrePost w)))
  /\ (forall symbols, reachable env (snd (apiQuote env message symbols w)))
  /\ (forall symbol modules, reachable env (snd (apiSummary env message symbol modules w)))
  /\ (forall filter count, reachable env (snd (apiScreener env message filter count w)))
  /\ (forall symbol, reachable env (snd (apiPage env message symbol w))).
Proof.
  intros Hr. split; [| split; [| split; [| split]]].
  - intros. now apply reachable_relay.
  - intros symbols. unfold apiQuote.
    destruct (missing symbols); [exact Hr | now apply reachable_relay].
  - intros. now apply reachable_relay.
  - intros. now apply reachable_relay.
  - intros symbol. unfold apiPage, try_catch, bind at 1.
    pose proof (reach_getCrumb env w Hr) as R1.
    destruct (getCrumb env w) as [[p | e] w1]; cbn [snd] in *.
    + pose proof (reach_page env w1 symbol (cookies p) R1) as R2.
      unfold bind at 1.
      destruct (axios_get env (page_request symbol (cookies p)) w1) as [[r | e] w2];
        cbn [snd] in *; [exact R2 |].
      exact (reach_console env w2 _ R2).
    + exact (reach_console env w1 _ R1).
Qed.

End Pairing.

(** C9, as amended: in a sequential run, provided the readings of the
    clock never decrease, every pair a call of [getCrumb] returns was produced
    by one acquisition cycle of the run: the trace holds a landing-page exchange immediately
    followed by the token exchange that presented that landing page's
    cookies, and the pair is made of those cookies and of that token.  The
    pair returned is also the pair stored, so this holds of the stored pair
    after every successful acquisition. *)
Theorem pairing_invariant (env : Env) (w w' : World) (p : CrumbPair) :
  monotone (Date_now env) ->
  reachable env w ->
  getCrumb env w = (Return p, w') ->
  same_cycle (trace w') p /\ stored_pair w' = p.
Proof.
  intros Hm Hr H.
  pose proof (paired_reachable env Hm w Hr) as Hp.
  destruct (getCrumb_cases env w) as [Hf | e _ _ | r1 e _ _ _ | r1 r2 _ _ _];
    try discriminate; injection H as <- <-.
  - split; [| reflexivity].
    apply is_fresh_true in Hf. destruct Hf as [Ht Hage].
    destruct Hp as [Hp | [Hp | Hp]].
    + congruence.
    + specialize (Hp (ticks w) (Nat.le_refl _)). lia.
    + exact Hp.
  - split; [apply same_cycle_acquired | reflexivity].
Qed.

Lemma second_clock_monotone : monotone Scenario.second_clock.
Proof.
  intros i j Hij. unfold Scenario.second_clock. lia.
Qed.

Lemma pairing_invariant_witness :
  same_cycle
    (trace (snd (getCrumb Scenario.scenario_c
                   (snd (yfRequest Scenario.scenario_c Scenario.chart initial)))))
    {| crumb := JStr "t2"; cookies := JStr "B=2" |}
  /\ stored_pair
       (snd (getCrumb Scenario.scenario_c
               (snd (yfRequest Scenario.scenario_c Scenario.chart initial))))
     = {| crumb := JStr "t2"; cookies := JStr "B=2" |}.
Proof.
  apply (pairing_invariant Scenario.scenario_c
           (snd (yfRequest Scenario.scenario_c Scenario.chart initial))).
  - exact second_clock_monotone.
  - apply reachable_yfRequest. apply reach_initial.
  - vm_compute. reflexivity.
Defined.

(** C9, as stated, fails in a sequential run when the clock steps back.
    A first cycle stores the token [t1] with the cookies [A=1]; an hour later
    a second cycle stores the cookies [B=2] and its token request fails; the
    clock then reads ten minutes, the freshness test passes again, and the
    third call returns the token of the first cycle with the cookies of the
    second. *)
Lemma clock_stepping_back :
  reachable Scenario.clock_steps_back
    (snd (getCrumb Scenario.clock_steps_back
            (snd (getCrumb Scenario.clock_steps_back initial))))
  /\ fst (getCrumb Scenario.clock_steps_back
            (snd (getCrumb Scenario.clock_steps_back
                    (snd (getCrumb Scenario.clock_steps_back initial)))))
     = Return {| crumb := JStr "t1"; cookies := JStr "B=2" |}
  /\ ~ same_cycle
         (trace (snd (getCrumb Scenario.clock_steps_back
                        (snd (getCrumb Scenario.clock_steps_back
                                (snd (getCrumb Scenario.clock_steps_back initial)))))))
         {| crumb := JStr "t1"; cookies := JStr "B=2" |}.
Proof.
  split; [| split].
  - apply reach_getCrumb. apply reach_getCrumb. apply reach_initial.
  - vm_compute. reflexivity.
  - intros [i [r1 [r2 [H1 [H2 [Hk Hc]]]]]].
    destruct i as [| [| [| [| i]]]]; vm_compute in H1, H2; try discriminate.
    injection H1 as <-. vm_compute in Hk. discriminate.
Qed.


(** ** Reuse of the cached pair *)

Lemma getCrumb_returns_stored (env : Env) (w w' : World) (p : CrumbPair) :
  getCrumb env w = (Return p, w') -> stored_pair w' = p.
Proof.
  intros H.
  destruct (getCrumb_cases env w) as [_ | e _ _ | r1 e _ _ _ | r1 r2 _ _ _];
    try discriminate; injection H as <- <-; reflexivity.
Qed.

(** X1: two calls of [getCrumb] in a row.  When the first returns a pair
    with a truthy token and the clock reading of the second is less than the
    TTL after the stored acquisition time, the second returns the same pair,
    sends nothing and leaves the credentials alone.  When the first returns a
    falsy token (the empty string of an empty body, or the number 0, [false]
    or [null] that a body of that text parses to), the second starts a new
    acquisition whatever the clock says. *)
Theorem second_call_reuses_pair (env : Env) (w w1 : World) (p : CrumbPair) :
  getCrumb env w = (Return p, w1) ->
  (truthy (crumb p) = true ->
   Date_now env (ticks w1) - _crumbTime (creds w1) < CRUMB_TTL ->
   fst (getCrumb env w1) = Return p
   /\ trace (snd (getCrumb env w1)) = trace w1
   /\ creds (snd (getCrumb env w1)) = creds w1)
  /\ (truthy (crumb p) = false ->
      exists s rest,
        issued w1 (snd (getCrumb env w1)) = (landing_request, s) :: rest).
Proof.
  intros H. pose proof (getCrumb_returns_stored env w w1 p H) as Hs.
  split.
  - intros Ht Hage.
    rewrite getCrumb_cached.
    + cbn [fst snd]. unfold stored_pair in Hs. rewrite Hs. repeat split.
    + apply is_fresh_true. split; [| exact Hage].
      rewrite <- Hs in Ht. exact Ht.
  - intros Ht. apply stale_starts_with_landing.
    apply is_fresh_false. left. rewrite <- Hs in Ht. exact Ht.
Qed.

Lemma second_call_reuses_pair_witness :
  fst (getCrumb Scenario.scenario_a (snd (getCrumb Scenario.scenario_a initial)))
  = Return {| crumb := JStr "abc123"; cookies := JStr "A=1" |}
  /\ trace (snd (getCrumb Scenario.scenario_a (snd (getCrumb Scenario.scenario_a initial))))
     = trace (snd (getCrumb Scenario.scenario_a initial))
  /\ creds (snd (getCrumb Scenario.scenario_a (snd (getCrumb Scenario.scenario_a initial))))
     = creds (snd (getCrumb Scenario.scenario_a initial)).
Proof.
  assert (H : getCrumb Scenario.scenario_a initial
              = (Return (mkPair (JStr "abc123") (JStr "A=1")),
                 snd (getCrumb Scenario.scenario_a initial)))
    by (vm_compute; reflexivity).
  apply (proj1 (second_call_reuses_pair Scenario.scenario_a initial _ _ H)).
  - reflexivity.
  - vm_compute. reflexivity.
Defined.

Example zero_token_is_acquired_again :
  fst (getCrumb Scenario.numeric_token_twice initial)
  = Return {| crumb := JNum Scenario.zero; cookies := JStr "A=1" |}
  /\ map (fun x => url (fst x))
       (trace (snd (getCrumb Scenario.numeric_token_twice
                      (snd (getCrumb Scenario.numeric_token_twice initial)))))
     = [LANDING_URL; GETCRUMB_URL; LANDING_URL; GETCRUMB_URL]
  /\ _cookies (creds (snd (getCrumb Scenario.numeric_token_twice
                             (snd (getCrumb Scenario.numeric_token_twice initial)))))
     = JStr "B=2".
Proof. repeat split. Qed.

(** ** How many requests one call can send *)

Lemma getCrumb_sends_at_most_two (env : Env) (w : World) :
  exists xs,
    trace (snd (getCrumb env w)) = (trace w ++ xs)%list
    /\ (List.length xs <= 2)%nat.
Proof.
  destruct (getCrumb_cases env w) as [_ | e _ _ | r1 e _ _ _ | r1 r2 _ _ _];
    cbn [snd].
  - exists []. cbn [checked trace]. rewrite app_nil_r. split; [reflexivity | cbn; lia].
  - exists [(landing_request, Rejected e)]. split; [reflexivity | cbn; lia].
  - exists [(landing_request, Resolved r1);
            (crumb_request (harvested r1), Rejected e)].
    split; [cbn; now rewrite <- app_assoc | cbn; lia].
  - exists [(landing_request, Resolved r1);
            (crumb_request (harvested r1), Resolved r2)].
    split; [reflexivity | cbn; lia].
Qed.

Lemma issued_length (w w' : World) (xs : list Exchange) :
  trace w' = (trace w ++ xs)%list -> List.length (issued w w') = List.length xs.
Proof.
  intros H. now rewrite (issued_app w w' xs H).
Qed.

Lemma yfRequest_sends_at_most_six (env : Env) (target : string) (w : World) :
  (List.length (issued w (snd (yfRequest env target w))) <= 6)%nat.
Proof.
  destruct (getCrumb_sends_at_most_two env w) as [xs [Ht Hn]].
  destruct (getCrumb env w) as [[p | e0] w1] eqn:H; cbn [snd] in Ht.
  2:{ rewrite (yfRequest_acquisition_fails env target w w1 e0 H). cbn [snd].
      rewrite (issued_length _ _ _ Ht). lia. }
  destruct (outcome env w1 (attempt target p)) as [r | e] eqn:H1.
  { rewrite (yfRequest_succeeds env target w w1 p r H H1). cbn [snd].
    rewrite (issued_length _ _ (xs ++ [(attempt target p, Resolved r)])).
    - rewrite length_app. cbn. lia.
    - cbn [logged trace]. now rewrite Ht, <- app_assoc. }
  destruct (auth_rejected e) eqn:Ha.
  2:{ rewrite (yfRequest_other_failure env target w w1 p e H H1 Ha). cbn [snd].
      rewrite (issued_length _ _ (xs ++ [(attempt target p, Rejected e)])).
      - rewrite length_app. cbn. lia.
      - cbn [logged trace]. now rewrite Ht, <- app_assoc. }
  rewrite (yfRequest_auth_rejected env target w w1 p e H H1 Ha).
  set (w2 := invalidated (logged w1 (attempt target p, Rejected e))).
  destruct (getCrumb_sends_at_most_two env w2) as [ys [Ht2 Hn2]].
  destruct (getCrumb env w2) as [[p2 | e'] w4]; cbn [snd] in *.
  - rewrite (issued_length _ _
               (xs ++ [(attempt target p, Rejected e)] ++ ys
                   ++ [(attempt target p2, outcome env w4 (attempt target p2))])).
    + rewrite !length_app. cbn. lia.
    + cbn [logged trace]. rewrite Ht2. cbn [w2 invalidated logged trace].
      rewrite Ht. now rewrite <- !app_assoc.
  - rewrite (issued_length _ _ (xs ++ [(attempt target p, Rejected e)] ++ ys)).
    + rewrite !length_app. cbn. unfold Exchange in *. lia.
    + rewrite Ht2. cbn [w2 invalidated logged trace].
      rewrite Ht. now rewrite <- !app_assoc.
Qed.

(** ** The pair that worked *)

Lemma yfRequest_return_shape
    (env : Env) (target : string) (w w' : World) (body : jsval) :
  yfRequest env target w = (Return body, w') ->
  exists tr r,
    trace w' = (tr ++ [(attempt target (stored_pair w'), Resolved r)])%list
    /\ body = data r.
Proof.
  intros Hy.
  destruct (getCrumb env w) as [[p | e0] w1] eqn:H.
  2:{ rewrite (yfRequest_acquisition_fails env target w w1 e0 H) in Hy. discriminate. }
  pose proof (getCrumb_returns_stored env w w1 p H) as Hs.
  destruct (outcome env w1 (attempt target p)) as [r | e] eqn:H1.
  { rewrite (yfRequest_succeeds env target w w1 p r H H1) in Hy.
    injection Hy as <- <-. exists (trace w1), r.
    split; [| reflexivity]. cbn [logged trace]. unfold stored_pair. cbn [logged creds].
    fold (stored_pair w1). now rewrite Hs. }
  destruct (auth_rejected e) eqn:Ha.
  2:{ rewrite (yfRequest_other_failure env target w w1 p e H H1 Ha) in Hy.
      discriminate. }
  rewrite (yfRequest_auth_rejected env target w w1 p e H H1 Ha) in Hy.
  set (w2 := invalidated (logged w1 (attempt target p, Rejected e))) in *.
  destruct (getCrumb env w2) as [[p2 | e'] w4] eqn:H4; [| discriminate].
  pose proof (getCrumb_returns_stored env w2 w4 p2 H4) as Hs2.
  destruct (outcome env w4 (attempt target p2)) as [r | e2]; [| discriminate].
  injection Hy as <- <-. exists (trace w4), r.
  split; [| reflexivity]. cbn [logged trace]. unfold stored_pair. cbn [logged creds].
  fold (stored_pair w4). now rewrite Hs2.
Qed.

Lemma outcome_resolved (env : Env) (w : World) (req : Request) (r : Response) :
  outcome env w req = Resolved r ->
  exists reply,
    upstream env (List.length (trace w)) req = Replied reply
    /\ r = axios_response (JSON_parse env) reply.
Proof.
  unfold outcome. destruct (upstream env _ req) as [msg | | reply]; cbn [settle];
    try discriminate.
  destruct ((200 <=? reply_status reply) && (reply_status reply <? 300));
    [| discriminate].
  intros [= <-]. now exists reply.
Qed.

(** X3: when [yfRequest] returns a value, the last exchange of the trace is
    a resolved data request, built for the target from the pair that is
    stored when the call ends, and the value returned is the data of that
    response: what axios made of the body of the upstream's reply to that
    request, that is the empty string for an empty body, the value
    [JSON.parse] gives when the body parses, and the text of the body
    otherwise. *)
Theorem returned_body_comes_from_stored_pair
    (env : Env) (target : string) (w w' : World) (body : jsval) :
  yfRequest env target w = (Return body, w') ->
  exists tr r reply,
    trace w' = (tr ++ [(attempt target (stored_pair w'), Resolved r)])%list
    /\ body = data r
    /\ upstream env (List.length tr) (attempt target (stored_pair w')) = Replied reply
    /\ body = transformResponse (JSON_parse env) (reply_body reply).
Proof.
  intros Hy.
  destruct (getCrumb env w) as [[p | e0] w1] eqn:H.
  2:{ rewrite (yfRequest_acquisition_fails env target w w1 e0 H) in Hy. discriminate. }
  pose proof (getCrumb_returns_stored env w w1 p H) as Hs.
  destruct (outcome env w1 (attempt target p)) as [r | e] eqn:H1.
  { rewrite (yfRequest_succeeds env target w w1 p r H H1) in Hy.
    injection Hy as <- <-.
    destruct (outcome_resolved env w1 _ r H1) as [reply [Hu ->]].
    exists (trace w1), (axios_response (JSON_parse env) reply), reply.
    unfold stored_pair. cbn [logged creds trace]. fold (stored_pair w1). rewrite Hs.
    repeat split. exact Hu. }
  destruct (auth_rejected e) eqn:Ha.
  2:{ rewrite (yfRequest_other_failure env target w w1 p e H H1 Ha) in Hy.
      discriminate. }
  rewrite (yfRequest_auth_rejected env target w w1 p e H H1 Ha) in Hy.
  set (w2 := invalidated (logged w1 (attempt target p, Rejected e))) in *.
  destruct (getCrumb env w2) as [[p2 | e'] w4] eqn:H4; [| discriminate].
  pose proof (getCrumb_returns_stored env w2 w4 p2 H4) as Hs2.
  destruct (outcome env w4 (attempt target p2)) as [r | e2] eqn:H5; [| discriminate].
  injection Hy as <- <-.
  destruct (outcome_resolved env w4 _ r H5) as [reply [Hu ->]].
  exists (trace w4), (axios_response (JSON_parse env) reply), reply.
  unfold stored_pair. cbn [logged creds trace]. fold (stored_pair w4). rewrite Hs2.
  repeat split. exact Hu.
Qed.

Lemma returned_body_comes_from_stored_pair_witness :
  exists tr r reply,
    trace (snd (yfRequest Scenario.scenario_c Scenario.chart initial))
    = (tr ++ [(attempt Scenario.chart
                 (stored_pair (snd (yfRequest Scenario.scenario_c Scenario.chart initial))),
               Resolved r)])%list
    /\ JObject [] = data r
    /\ upstream Scenario.scenario_c (List.length tr)
         (attempt Scenario.chart
            (stored_pair (snd (yfRequest Scenario.scenario_c Scenario.chart initial))))
       = Replied reply
    /\ JObject [] = transformResponse (JSON_parse Scenario.scenario_c) (reply_body reply).
Proof.
  assert (H : yfRequest Scenario.scenario_c Scenario.chart initial
              = (Return (JObject []),
                 snd (yfRequest Scenario.scenario_c Scenario.chart initial)))
    by (vm_compute; reflexivity).
  exact (returned_body_comes_from_stored_pair Scenario.scenario_c Scenario.chart
           initial _ (JObject []) H).
Defined.

(** A body that is JSON comes back as the value it denotes, not as its
    text. *)
Example json_body_is_returned_parsed :
  fst (yfRequest (Scenario.env_of [Scenario.ok None "[1, 2]"]) Scenario.target_b
         Scenario.cached)
  = Return (JArray [Scenario.number "1"; Scenario.number "2"]).
Proof. vm_compute. reflexivity. Qed.


(** X2: one call of [getCrumb] sends at most two requests, and one call of
    [yfRequest] at most six: two acquisitions of two requests each and two
    requests to the data endpoint. *)
Theorem upstream_request_bound (env : Env) (target : string) (w : World) :
  (List.length (issued w (snd (getCrumb env w))) <= 2)%nat
  /\ (List.length (issued w (snd (yfRequest env target w))) <= 6)%nat.
Proof.
  split; [| apply yfRequest_sends_at_most_six].
  destruct (getCrumb_sends_at_most_two env w) as [xs [Ht Hn]].
  now rewrite (issued_length _ _ _ Ht).
Qed.

Example bound_is_reached :
  List.length (issued initial (snd (yfRequest Scenario.scenario_c Scenario.chart initial)))
  = 6%nat.
Proof. vm_compute. reflexivity. Qed.

(** ** The token endpoint is only asked after the landing page *)

Lemma token_after_landing_other (tr : list Exchange) (x : Exchange) :
  token_after_landing tr ->
  (forall k s, x <> (crumb_request k, s)) ->
  token_after_landing (tr ++ [x]).
Proof.
  intros IH Hx i k s Hi.
  destruct (Nat.lt_ge_cases i (List.length tr)) as [Hlt | Hge].
  - rewrite nth_error_app1 in Hi by assumption.
    destruct (IH i k s Hi) as [j [r1 [-> [Hj Hk]]]].
    exists j, r1. repeat split; try assumption.
    rewrite nth_error_app1 by lia. assumption.
  - rewrite nth_error_app2 in Hi by assumption.
    destruct (i - List.length tr)%nat as [| n]; cbn in Hi.
    + injection Hi as Hi. now apply Hx in Hi.
    + now destruct n.
Qed.

Lemma landing_is_not_token (s : Settled) (k : jsval) (s' : Settled) :
  (landing_request, s) <> (crumb_request k, s').
Proof.
  intros H. apply (f_equal (fun x => url (fst x))) in H. vm_compute in H. discriminate.
Qed.

Lemma attempt_is_not_token (target : string) (p : CrumbPair) (s : Settled)
    (k : jsval) (s' : Settled) :
  (attempt target p, s) <> (crumb_request k, s').
Proof.
  intros H. pose proof (attempt_is_data target p s) as Hd.
  rewrite H in Hd. vm_compute in Hd. discriminate.
Qed.

Lemma page_is_not_token (symbol : string) (c : jsval) (s : Settled)
    (k : jsval) (s' : Settled) :
  (page_request symbol c, s) <> (crumb_request k, s').
Proof.
  intros H. apply (f_equal (fun x => timeout (fst x))) in H. discriminate.
Qed.

Lemma token_after_landing_cycle (tr : list Exchange) (r1 : Response) (s : Settled) :
  token_after_landing tr ->
  token_after_landing
    (tr ++ [(landing_request, Resolved r1); (crumb_request (harvested r1), s)]).
Proof.
  intros IH.
  assert (H1 : token_after_landing (tr ++ [(landing_request, Resolved r1)])).
  { apply token_after_landing_other; [assumption |].
    intros k s'. apply landing_is_not_token. }
  intros i k s' Hi.
  change [(landing_request, Resolved r1); (crumb_request (harvested r1), s)]
    with ([(landing_request, Resolved r1)] ++ [(crumb_request (harvested r1), s)])%list
    in Hi.
  rewrite app_assoc in Hi.
  destruct (Nat.lt_ge_cases i (List.length (tr ++ [(landing_request, Resolved r1)])))
    as [Hlt | Hge].
  - rewrite nth_error_app1 in Hi by assumption.
    destruct (H1 i k s' Hi) as [j [r [-> [Hj Hk]]]].
    exists j, r. repeat split; try assumption.
    rewrite nth_error_app1; [| rewrite length_app in *; cbn in *; lia].
    rewrite nth_error_app1 in Hj; [assumption | rewrite length_app in *; cbn in *; lia].
  - rewrite nth_error_app2 in Hi by assumption.
    rewrite length_app in *. cbn [List.length] in *. unfold Exchange in *.
    destruct (i - (List.length tr + 1))%nat as [| n] eqn:E; cbn in Hi.
    + assert (Hk : k = harvested r1) by (unfold crumb_request in Hi; congruence).
      exists (List.length tr), r1.
      split; [lia |]. split; [| exact Hk].
      rewrite nth_error_app2 by lia. now rewrite Nat.sub_diag.
    + now destruct n.
Qed.

(** X4: in every world a sequential run reaches, each request to the token
    endpoint found in the trace comes right after a landing-page exchange
    that resolved, and presents exactly the cookies harvested from that
    reply: the token is never asked for with the cookies of an older
    landing page, nor without a landing page. *)
Theorem token_request_follows_landing (env : Env) (w : World) :
  reachable env w -> token_after_landing (trace w).
Proof.
  induction 1 as [| w _ IH | w _ IH | w _ IH | w target p _ IH | w symbol c _ IH
                  | w line _ IH].
  - intros i k s Hi. now destruct i.
  - destruct (getCrumb_cases env w) as [_ | e _ _ | r1 e _ _ _ | r1 r2 _ _ _];
      cbn [snd].
    + exact IH.
    + apply token_after_landing_other; [exact IH |].
      intros k s. apply landing_is_not_token.
    + cbn [logged cookies_stored trace]. rewrite <- app_assoc.
      now apply token_after_landing_cycle.
    + now apply token_after_landing_cycle.
  - exact IH.
  - exact IH.
  - unfold axios_get. destruct (settle _ _ _); cbn [snd trace];
      (apply token_after_landing_other; [exact IH |]);
      intros k s; apply attempt_is_not_token.
  - unfold axios_get. destruct (settle _ _ _); cbn [snd trace];
      (apply token_after_landing_other; [exact IH |]);
      intros k s; apply page_is_not_token.
  - exact IH.
Qed.

Lemma token_request_follows_landing_witness :
  token_after_landing
    (trace (snd (yfRequest Scenario.scenario_c Scenario.chart initial))).
Proof.
  apply (token_request_follows_landing Scenario.scenario_c).
  apply reachable_yfRequest. apply reach_initial.
Defined.

(** ** A failed refresh after an authentication rejection *)

Lemma getCrumb_throw_keeps_token (env : Env) (w w' : World) (e : AxiosError) :
  getCrumb env w = (Throw e, w') ->
  _crumb (creds w') = _crumb (creds w)
  /\ _crumbTime (creds w') = _crumbTime (creds w).
Proof.
  intros H.
  destruct (getCrumb_cases env w) as [_ | e0 _ _ | r1 e0 _ _ _ | r1 r2 _ _ _];
    try discriminate; injection H as <- <-; split; reflexivity.
Qed.

(** X5: when the first request of [yfRequest] is rejected with a 401 or
    403 and the acquisition that follows throws, the call ends with the token
    cleared: [_crumb] is [null], so the rejected token is never served from
    the cache again and the next call of [getCrumb] starts with the
    landing-page request. *)
Theorem failed_refresh_leaves_token_cleared
    (env : Env) (target : string) (w w1 w4 : World) (p : CrumbPair)
    (e e' : AxiosError) :
  getCrumb env w = (Return p, w1) ->
  outcome env w1 (attempt target p) = Rejected e ->
  auth_rejected e = true ->
  getCrumb env (invalidated (logged w1 (attempt target p, Rejected e))) = (Throw e', w4) ->
  snd (yfRequest env target w) = w4
  /\ _crumb (creds w4) = JNull
  /\ exists s rest,
      issued w4 (snd (getCrumb env w4)) = (landing_request, s) :: rest.
Proof.
  intros H H1 Ha H4.
  rewrite (yfRequest_auth_rejected env target w w1 p e H H1 Ha), H4.
  destruct (getCrumb_throw_keeps_token env _ w4 e' H4) as [Hc _].
  cbn [invalidated creds _crumb] in Hc.
  split; [reflexivity |]. split; [exact Hc |].
  apply stale_starts_with_landing. apply is_fresh_false. left. now rewrite Hc.
Qed.

Lemma failed_refresh_leaves_token_cleared_witness :
  _crumb (creds (snd (yfRequest Scenario.reacquisition_fails Scenario.chart initial)))
  = JNull.
Proof.
  pose (p := mkPair (JStr "t1") (JStr "A=1")).
  pose (e := BadStatus {| status := 401; set_cookie := None; data := JStr "" |}).
  pose (w1 := snd (getCrumb Scenario.reacquisition_fails initial)).
  pose (w2 := invalidated (logged w1 (attempt Scenario.chart p, Rejected e))).
  assert (H : getCrumb Scenario.reacquisition_fails initial = (Return p, w1))
    by (vm_compute; reflexivity).
  assert (H1 : outcome Scenario.reacquisition_fails w1 (attempt Scenario.chart p)
               = Rejected e)
    by (vm_compute; reflexivity).
  assert (H4 : getCrumb Scenario.reacquisition_fails w2
               = (Throw (NetworkError "ECONNREFUSED"),
                  snd (getCrumb Scenario.reacquisition_fails w2)))
    by (vm_compute; reflexivity).
  destruct (failed_refresh_leaves_token_cleared Scenario.reacquisition_fails
              Scenario.chart initial w1 _ p e _ H H1 eq_refl H4)
    as [Hw [Hc _]].
  rewrite Hw. exact Hc.
Defined.

(** ** A landing page that sets no cookie *)

(** X6: when the landing-page reply carries no [Set-Cookie] header, or an
    empty one, the acquisition goes on: the token request is sent with the
    empty string as its [Cookie] header, and the stored cookie header is the
    empty string (not [null]) whether or not the token request succeeds. *)
Theorem acquisition_without_cookies (env : Env) (w : World) (r1 : Response) :
  is_fresh env w = false ->
  outcome env (checked w) landing_request = Resolved r1 ->
  set_cookie r1 = None \/ set_cookie r1 = Some [] ->
  (exists s,
      issued w (snd (getCrumb env w))
      = [(landing_request, Resolved r1); (crumb_request (JStr EmptyString), s)])
  /\ _cookies (creds (snd (getCrumb env w))) = JStr EmptyString.
Proof.
  intros Hf H1 Hc.
  assert (Hh : harvested r1 = JStr EmptyString).
  { unfold harvested, raw_cookies. now destruct Hc as [-> | ->]. }
  destruct (outcome env (cookies_stored w r1) (crumb_request (harvested r1)))
    as [r2 | e] eqn:H2.
  - rewrite (getCrumb_acquires env w r1 r2 Hf H1 H2). cbn [snd]. split.
    + exists (Resolved r2). rewrite <- Hh. now apply issued_app.
    + cbn. exact Hh.
  - rewrite (getCrumb_token_fails env w r1 e Hf H1 H2). cbn [snd]. split.
    + exists (Rejected e). rewrite <- Hh. apply issued_app.
      cbn. now rewrite <- app_assoc.
    + cbn. exact Hh.
Qed.

Lemma acquisition_without_cookies_witness :
  (exists s,
      issued initial (snd (getCrumb RouteScenario.no_cookies initial))
      = [(landing_request,
          Resolved {| status := 200; set_cookie := None; data := JStr "<html>" |});
         (crumb_request (JStr EmptyString), s)])
  /\ _cookies (creds (snd (getCrumb RouteScenario.no_cookies initial))) = JStr EmptyString.
Proof.
  apply (acquisition_without_cookies RouteScenario.no_cookies initial
           {| status := 200; set_cookie := None; data := JStr "<html>" |}).
  - reflexivity.
  - vm_compute. reflexivity.
  - left. reflexivity.
Defined.


(** ** The alphabet and the inverse of the encoding *)

Lemma percent_chars (c : ascii) :
  Unescape.every Unescape.encoded_char (Uri.percent c) = true.
Proof.
  destruct c as [[|] [|] [|] [|] [|] [|] [|] [|]]; vm_compute; reflexivity.
Qed.

Lemma percent_decode (c : ascii) (rest : string) :
  Unescape.decode (Uri.percent c ++ rest) = String c (Unescape.decode rest).
Proof.
  destruct c as [[|] [|] [|] [|] [|] [|] [|] [|]]; reflexivity.
Qed.

Lemma unreserved_decode (c : ascii) (rest : string) :
  Uri.unreserved c = true ->
  Unescape.decode (String c rest) = String c (Unescape.decode rest).
Proof.
  intros H. cbn [Unescape.decode].
  destruct (Ascii.eqb c "%") eqn:E; [| reflexivity].
  apply Ascii.eqb_eq in E. subst c. discriminate.
Qed.

Lemma every_append (P : ascii -> bool) (a b : string) :
  Unescape.every P (a ++ b) = Unescape.every P a && Unescape.every P b.
Proof.
  induction a as [| c a IH]; cbn; [reflexivity |].
  now rewrite IH, andb_assoc.
Qed.

Lemma every_mem (P : ascii -> bool) (s : string) (c : ascii) :
  Unescape.every P s = true -> JsString.mem c s = true -> P c = true.
Proof.
  induction s as [| d s IH]; cbn; [discriminate |].
  intros H Hm. apply andb_true_iff in H. destruct H as [Hd Hs].
  apply orb_true_iff in Hm. destruct Hm as [Hm | Hm].
  - apply Ascii.eqb_eq in Hm. now subst d.
  - now apply IH.
Qed.

Lemma encode_every (s : string) :
  Unescape.every Unescape.encoded_char (Uri.encode s) = true.
Proof.
  induction s as [| c s IH]; cbn [Uri.encode]; [reflexivity |].
  destruct (Uri.unreserved c) eqn:E.
  - cbn. unfold Unescape.encoded_char at 1. now rewrite E, IH.
  - now rewrite every_append, percent_chars, IH.
Qed.

Lemma encode_excludes (s : string) (c : ascii) :
  Unescape.encoded_char c = false -> JsString.mem c (Uri.encode s) = false.
Proof.
  intros Hc. destruct (JsString.mem c (Uri.encode s)) eqn:E; [| reflexivity].
  rewrite (every_mem _ _ _ (encode_every s) E) in Hc. discriminate.
Qed.

(** X7: in every request [yfRequest] builds, what follows [crumb=] is made
    of unreserved characters and [%] only, whatever the token is among the
    values of this development (strings being well-formed texts; on a string
    with a lone surrogate [encodeURIComponent] throws and no request is
    built): it holds no [&], [=], [#], [?] or [/], so a token can neither end
    the parameter nor add another one. *)
Theorem crumb_value_alphabet (target : string) (p : CrumbPair) :
  url (attempt target p)
  = target ++ separator target ++ "crumb=" ++ encodeURIComponent (crumb p)
  /\ (forall c, JsString.mem c (encodeURIComponent (crumb p)) = true ->
                Uri.unreserved c = true \/ c = "%"%char)
  /\ JsString.mem "&" (encodeURIComponent (crumb p)) = false
  /\ JsString.mem "=" (encodeURIComponent (crumb p)) = false
  /\ JsString.mem "#" (encodeURIComponent (crumb p)) = false
  /\ JsString.mem "?" (encodeURIComponent (crumb p)) = false
  /\ JsString.mem "/" (encodeURIComponent (crumb p)) = false.
Proof.
  split; [reflexivity |]. unfold encodeURIComponent. split.
  { intros c Hm.
    pose proof (every_mem _ _ _ (encode_every (to_string (crumb p))) Hm) as H.
    unfold Unescape.encoded_char in H. apply orb_true_iff in H.
    destruct H as [H | H]; [now left | right; now apply Ascii.eqb_eq]. }
  repeat split; now apply encode_excludes.
Qed.

Lemma crumb_value_alphabet_witness :
  Uri.unreserved "%" = true \/ "%"%char = "%"%char.
Proof.
  apply (proj1 (proj2 (crumb_value_alphabet Scenario.chart
                         {| crumb := JStr "a&b+c"; cookies := JStr "A=1" |}))
           "%"%char).
  reflexivity.
Defined.

Lemma decode_encode (s : string) : Unescape.decode (Uri.encode s) = s.
Proof.
  induction s as [| c s IH]; cbn [Uri.encode]; [reflexivity |].
  destruct (Uri.unreserved c) eqn:E.
  - now rewrite unreserved_decode, IH.
  - now rewrite percent_decode, IH.
Qed.

Lemma append_cancel (a b c : string) : a ++ b = a ++ c -> b = c.
Proof.
  induction a as [| x a IH]; cbn; [auto |].
  intros [= H]. auto.
Qed.

(** X8: two different string tokens never give the same URL: for a given
    target and separator, the URLs [yfRequest] builds from two strings differ
    as soon as the strings differ, because reading every [%XX] of the
    encoding back as its byte returns the string that was encoded.  This is
    for strings only: a token of another type gives the URL of the string
    [String(token)], so the token [null] and the string [null] give the same
    URL, and so do a number and its numeral. *)
Theorem string_tokens_give_different_urls :
  (forall target sep a b,
      a <> b -> with_crumb target sep (JStr a) <> with_crumb target sep (JStr b))
  /\ (forall s, Unescape.decode (Uri.encode s) = s)
  /\ (forall target sep v,
      with_crumb target sep v = with_crumb target sep (JStr (to_string v)))
  /\ (forall target sep,
      with_crumb target sep JNull = with_crumb target sep (JStr "null")).
Proof.
  split; [| split; [exact decode_encode | split; reflexivity]].
  intros target sep a b Hab H. apply Hab.
  unfold with_crumb, encodeURIComponent in H. cbn [to_string] in H.
  rewrite <- (decode_encode a), <- (decode_encode b). f_equal.
  apply (append_cancel "crumb="). apply (append_cancel sep).
  now apply (append_cancel target).
Qed.

Lemma string_tokens_give_different_urls_witness :
  with_crumb Scenario.chart "?" (JStr "a&b") <> with_crumb Scenario.chart "?" (JStr "a%26b").
Proof.
  apply (proj1 string_tokens_give_different_urls). discriminate.
Defined.

(** ** The route handlers *)

Lemma relays_try_catch (env : Env) (message : AxiosError -> string)
    (label target : string) :
  relays env message target
    (try_catch
       (bind (yfRequest env target)
          (fun body => ret {| code := None; payload := Json body |}))
       (fun err =>
          bind (console_error message label err)
            (fun _ => ret {| code := Some 500; payload := JsonError (message err) |}))).
Proof.
  intros w. unfold try_catch, bind at 1.
  pose proof (yfRequest_sends_at_most_six env target w) as Hn.
  destruct (yfRequest env target w) as [[body | e] wy] eqn:Hy; cbn [fst snd] in *.
  - exists {| code := None; payload := Json body |}, wy.
    split; [reflexivity |]. split; [reflexivity |]. split; [reflexivity |].
    split; [exact Hn |]. left.
    destruct (yfRequest_return_shape env target w wy body Hy) as [tr [r [Ht ->]]].
    exists tr, r. repeat split. exact Ht.
  - eexists. eexists. split; [reflexivity |]. cbn [creds trace].
    split; [reflexivity |]. split; [reflexivity |].
    split; [exact Hn |]. right. exists e. split; reflexivity.
Qed.

(** X9: the four data handlers never throw.  Each relays its upstream URL
    through [yfRequest]: it hands to [res.json], without setting a status,
    the data [yfRequest] returned, which is the data axios delivered for the
    last upstream reply (the parsed body when the body is JSON), or it sets
    status 500 and answers the message of the error; it sends at most six
    requests upstream and leaves the credentials as [yfRequest] left them.
    The quote handler sets status 400 and answers an error without touching
    the world, hence without any upstream request, when [symbols] is missing
    or empty. *)
Theorem data_handlers_relay (env : Env) (message : AxiosError -> string) :
  (forall symbol range interval includePrePost,
      relays env message (chart_url symbol range interval includePrePost)
        (apiChart env message symbol range interval includePrePost))
  /\ (forall symbols,
         missing (Some symbols) = false ->
         relays env message (quote_url symbols) (apiQuote env message (Some symbols)))
  /\ (forall symbols w,
         missing symbols = true ->
         exists error,
           apiQuote env message symbols w
           = (Return {| code := Some 400; payload := JsonError error |}, w))
  /\ (forall symbol modules,
         relays env message (summary_url symbol modules)
           (apiSummary env message symbol modules))
  /\ (forall filter count,
         relays env message (screener_url filter count)
           (apiScreener env message filter count)).
Proof.
  split; [| split; [| split; [| split]]].
  - intros. apply relays_try_catch.
  - intros symbols Hm. unfold apiQuote. rewrite Hm. apply relays_try_catch.
  - intros symbols w Hm. unfold apiQuote. rewrite Hm. now eexists.
  - intros. apply relays_try_catch.
  - intros. apply relays_try_catch.
Qed.

Lemma data_handlers_relay_witness :
  exists error,
    apiQuote Scenario.scenario_c (fun _ => "failed") (Some EmptyString) initial
    = (Return {| code := Some 400; payload := JsonError error |}, initial).
Proof.
  exact (proj1 (proj2 (proj2 (data_handlers_relay Scenario.scenario_c (fun _ => "failed"))))
           (Some EmptyString) initial eq_refl).
Defined.

(** The chart handler hands the parsed body to [res.json]. *)
Example chart_answers_parsed_json :
  fst (apiChart (Scenario.env_of [Scenario.ok None "[1, 2]"]) (fun _ => "failed")
         "AAPL" None None None Scenario.cached)
  = Return {| code := None;
              payload := Json (JArray [Scenario.number "1"; Scenario.number "2"]) |}.
Proof. vm_compute. reflexivity. Qed.

(** ** The shape of the handlers' URLs *)

Lemma mem_append (c : ascii) (a b : string) :
  JsString.mem c (a ++ b) = JsString.mem c a || JsString.mem c b.
Proof.
  induction a as [| d a IH]; cbn; [reflexivity |].
  now rewrite IH, orb_assoc.
Qed.

Lemma before_append (c : ascii) (a b : string) :
  JsString.mem c a = false -> JsString.before c (a ++ String c b) = a.
Proof.
  induction a as [| d a IH]; cbn.
  - intros _. now rewrite Ascii.eqb_refl.
  - intros H. apply orb_false_iff in H. destruct H as [Hd Ha].
    now rewrite Hd, IH.
Qed.

Lemma separator_of_query (a b : string) : separator (a ++ String "?" b) = "&".
Proof.
  unfold separator.
  change (a ++ String "?" b) with (a ++ "?" ++ b).
  now rewrite includes_append.
Qed.

(** X10: every URL a data handler builds already has a query string,
    whatever the parameters, so [yfRequest] always appends the token to it
    as [&crumb=...] and never as [?crumb=...]. *)
Theorem handlers_append_with_ampersand :
  (forall symbol range interval includePrePost,
      separator (chart_url symbol range interval includePrePost) = "&")
  /\ (forall symbols, separator (quote_url symbols) = "&")
  /\ (forall symbol modules, separator (summary_url symbol modules) = "&")
  /\ (forall filter count, separator (screener_url filter count) = "&")
  /\ (forall symbol range interval includePrePost p,
      url (attempt (chart_url symbol range interval includePrePost) p)
      = chart_url symbol range interval includePrePost
          ++ "&crumb=" ++ encodeURIComponent (crumb p)).
Proof.
  assert (Hchart : forall symbol range interval includePrePost,
             separator (chart_url symbol range interval includePrePost) = "&").
  { intros. unfold chart_url. rewrite <- append_assoc. apply separator_of_query. }
  split; [exact Hchart |]. split; [| split; [| split]].
  - intros. unfold quote_url.
    change ("https://query1.finance.yahoo.com/v7/finance/quote?symbols="
              ++ encodeURIComponent (JStr symbols))
      with ("https://query1.finance.yahoo.com/v7/finance/quote"
              ++ String "?" ("symbols=" ++ encodeURIComponent (JStr symbols))).
    apply separator_of_query.
  - intros. unfold summary_url. rewrite <- append_assoc. apply separator_of_query.
  - intros. unfold screener_url.
    change ("https://query1.finance.yahoo.com/v1/finance/screener/predefined/saved?formatted=false&lang=en-US&region=US&scrIds="
              ++ filter ++ "&count=" ++ or_default count "100")
      with ("https://query1.finance.yahoo.com/v1/finance/screener/predefined/saved"
              ++ String "?" ("formatted=false&lang=en-US&region=US&scrIds="
                               ++ filter ++ "&count=" ++ or_default count "100")).
    apply separator_of_query.
  - intros. unfold attempt, data_request, url, with_crumb. now rewrite Hchart.
Qed.

(** X11: a [:symbol] path parameter cannot change the shape of the
    upstream URL.  Whatever the symbol, the part of the chart and summary
    URLs before the first [?] is the endpoint's path followed by the encoded
    symbol, the encoded symbol holds no [/], and the page URL has no query
    string at all. *)
Theorem symbol_stays_in_its_segment (symbol : string) :
  (forall range interval includePrePost,
      JsString.before "?" (chart_url symbol range interval includePrePost)
      = "https://query1.finance.yahoo.com/v8/finance/chart/" ++ Uri.encode symbol)
  /\ (forall modules,
      JsString.before "?" (summary_url symbol modules)
      = "https://query1.finance.yahoo.com/v10/finance/quoteSummary/" ++ Uri.encode symbol)
  /\ JsString.mem "/" (Uri.encode symbol) = false
  /\ JsString.mem "?" (page_url symbol) = false.
Proof.
  assert (Hq : JsString.mem "?" (Uri.encode symbol) = false)
    by now apply encode_excludes.
  split; [| split; [| split]].
  - intros. unfold chart_url, encodeURIComponent. cbn [to_string].
    rewrite <- append_assoc. apply before_append.
    rewrite mem_append, Hq. reflexivity.
  - intros. unfold summary_url, encodeURIComponent. cbn [to_string].
    rewrite <- append_assoc. apply before_append.
    rewrite mem_append, Hq. reflexivity.
  - now apply encode_excludes.
  - unfold page_url, encodeURIComponent. cbn [to_string].
    rewrite !mem_append, Hq. reflexivity.
Qed.



(** A page whose text is [404] reaches [res.send] as the number 404, which
    Express takes for a status code. *)
Example numeric_page_is_sent_as_number :
  fst (apiPage (Scenario.env_of [Scenario.ok None "404"]) (fun _ => "failed") "AAPL"
         Scenario.cached)
  = Return {| code := None; payload := Sent (Scenario.number "404") |}.
Proof. vm_compute. reflexivity. Qed.

Example page_rejected_is_not_retried :
  map (fun x => url (fst x))
    (issued Scenario.cached
       (snd (apiPage RouteScenario.page_forbidden (fun _ => "failed") "AAPL" Scenario.cached)))
  = ["https://finance.yahoo.com/quote/AAPL/"]
  /\ creds (snd (apiPage RouteScenario.page_forbidden (fun _ => "failed") "AAPL"
                   Scenario.cached))
     = creds Scenario.cached.
Proof. split; vm_compute; reflexivity. Qed.


(** ** The service worker: activation *)

Lemma fold_delete (ks : list string) (cs : Sw.CacheStorage) :
  fold_left (fun cs k => Sw.caches_delete k cs) ks cs
  = filter (fun e => negb (existsb (String.eqb (fst e)) ks)) cs.
Proof.
  revert cs. induction ks as [| k ks IH]; intros cs; cbn [fold_left existsb].
  - induction cs as [| e cs IHc]; cbn; [reflexivity | f_equal; exact IHc].
  - rewrite IH. unfold Sw.caches_delete.
    induction cs as [| e cs IHc]; cbn [filter]; [reflexivity |].
    destruct (String.eqb (fst e) k); cbn [negb orb filter].
    + exact IHc.
    + destruct (existsb (String.eqb (fst e)) ks); cbn [negb]; now rewrite IHc.
Qed.

(** X13: activation keeps the caches named [stockai-v1], with their
    contents and in their order, deletes every other cache, and fetches
    nothing. *)
Theorem activate_keeps_current_cache_only (w : Sw.SwWorld) :
  Sw.storage (Sw.on_activate w)
  = filter (fun e => String.eqb (fst e) Sw.CACHE_NAME) (Sw.storage w)
  /\ Sw.fetched (Sw.on_activate w) = Sw.fetched w
  /\ (forall name, In name (Sw.caches_keys (Sw.storage (Sw.on_activate w))) ->
                   name = Sw.CACHE_NAME).
Proof.
  assert (H : Sw.storage (Sw.on_activate w)
              = filter (fun e => String.eqb (fst e) Sw.CACHE_NAME) (Sw.storage w)).
  { unfold Sw.on_activate. cbn [Sw.storage]. rewrite fold_delete.
    apply filter_ext_in. intros e He.
    destruct (String.eqb (fst e) Sw.CACHE_NAME) eqn:E.
    - apply negb_true_iff.
      destruct (existsb _ _) eqn:Ex; [| reflexivity].
      apply existsb_exists in Ex. destruct Ex as [k [Hk Hek]].
      apply filter_In in Hk. destruct Hk as [_ Hk].
      apply String.eqb_eq in Hek. subst k. rewrite E in Hk. discriminate.
    - apply negb_false_iff. apply existsb_exists. exists (fst e). split.
      + apply filter_In. split; [| now rewrite E].
        unfold Sw.caches_keys. now apply in_map.
      + apply String.eqb_refl. }
  split; [exact H |]. split; [reflexivity |].
  intros name Hn. rewrite H in Hn. unfold Sw.caches_keys in Hn.
  apply in_map_iff in Hn. destruct Hn as [e [<- He]].
  apply filter_In in He. destruct He as [_ He]. now apply String.eqb_eq.
Qed.

Lemma activate_keeps_current_cache_only_witness :
  Sw.storage (Sw.on_activate SwScenario.two_versions)
  = [("stockai-v1", [(SwScenario.logo, SwScenario.plain 200 "new")])]
  /\ "stockai-v1" = Sw.CACHE_NAME.
Proof.
  split.
  - exact (proj1 (activate_keeps_current_cache_only SwScenario.two_versions)).
  - apply (proj2 (proj2 (activate_keeps_current_cache_only SwScenario.two_versions))).
    left. reflexivity.
Defined.

(** ** The service worker: matching and storing *)

Lemma url_eqb_eq (a b : Sw.Url) : Sw.url_eqb a b = true <-> a = b.
Proof.
  unfold Sw.url_eqb. destruct a as [s h o p q], b as [s' h' o' p' q']; cbn.
  rewrite !andb_true_iff, !String.eqb_eq. split.
  - intros [[[[-> ->] ->] ->] ->]. reflexivity.
  - intros [= -> -> -> -> ->]. auto.
Qed.

Lemma url_eqb_refl (a : Sw.Url) : Sw.url_eqb a a = true.
Proof. now apply url_eqb_eq. Qed.

Lemma same_header_refl (q : Sw.SwRequest) (field : string) :
  Sw.same_header q q field = true.
Proof.
  unfold Sw.same_header. destruct (Sw.header _ field); [apply String.eqb_refl | reflexivity].
Qed.

Lemma matches_self (q : Sw.SwRequest) (r : Sw.SwResponse) :
  Sw.vary_known r = true -> Sw.matches q (q, r) = true.
Proof.
  intros Hv. unfold Sw.matches; cbn [fst snd]. rewrite url_eqb_refl, Hv. cbn [andb].
  apply forallb_forall. intros field _. apply same_header_refl.
Qed.

Lemma matches_url (q : Sw.SwRequest) (e : Sw.Entry) :
  Sw.matches q e = true -> Sw.request_url (fst e) = Sw.request_url q.
Proof.
  unfold Sw.matches. intros H. apply andb_true_iff in H. destruct H as [H _].
  apply andb_true_iff in H. destruct H as [H _]. now apply url_eqb_eq.
Qed.

Lemma cache_match_app (c c' : Sw.Cache) (q : Sw.SwRequest) :
  Sw.cache_match (c ++ c')%list q
  = match Sw.cache_match c q with
    | Some r => Some r
    | None => Sw.cache_match c' q
    end.
Proof.
  induction c as [| e c IH]; cbn; [reflexivity |].
  destruct (Sw.matches q e); [reflexivity | exact IH].
Qed.

Lemma cache_match_removed (c : Sw.Cache) (q : Sw.SwRequest) :
  Sw.cache_match (filter (fun e => negb (Sw.matches q e)) c) q = None.
Proof.
  induction c as [| e c IH]; cbn; [reflexivity |].
  destruct (Sw.matches q e) eqn:E; cbn; [exact IH |].
  now rewrite E.
Qed.

Lemma cache_match_put_same (c : Sw.Cache) (q : Sw.SwRequest) (r : Sw.SwResponse) :
  Sw.vary_known r = true -> Sw.cache_match (Sw.cache_put c q r) q = Some r.
Proof.
  intros Hv. unfold Sw.cache_put. rewrite cache_match_app, cache_match_removed.
  cbn. now rewrite matches_self.
Qed.

Lemma cache_match_in (c : Sw.Cache) (q : Sw.SwRequest) (r : Sw.SwResponse) :
  Sw.cache_match c q = Some r ->
  exists k, In (k, r) c /\ Sw.request_url k = Sw.request_url q.
Proof.
  induction c as [| [k rk] c IH]; cbn; [discriminate |].
  destruct (Sw.matches q (k, rk)) eqn:E.
  - intros [= <-]. exists k. split; [now left |]. now apply matches_url in E.
  - intros H. destruct (IH H) as [k' [Hin Hu]]. exists k'. split; [now right | exact Hu].
Qed.

Lemma cache_put_miss (c : Sw.Cache) (q : Sw.SwRequest) (r : Sw.SwResponse) :
  Sw.cache_match c q = None -> Sw.cache_put c q r = (c ++ [(q, r)])%list.
Proof.
  intros H. unfold Sw.cache_put. f_equal.
  induction c as [| e c IH]; cbn in *; [reflexivity |].
  destruct (Sw.matches q e); [discriminate |]. cbn. f_equal. now apply IH.
Qed.

(** A put for another URL does not change what a request is answered. *)
Lemma cache_match_put_other (c : Sw.Cache) (q q' : Sw.SwRequest) (r : Sw.SwResponse) :
  Sw.request_url q <> Sw.request_url q' ->
  Sw.cache_match (Sw.cache_put c q r) q' = Sw.cache_match c q'.
Proof.
  intros Hu. unfold Sw.cache_put. rewrite cache_match_app.
  assert (Hnew : Sw.cache_match [(q, r)] q' = None).
  { cbn. destruct (Sw.matches q' (q, r)) eqn:E; [| reflexivity].
    apply matches_url in E. cbn in E. contradiction. }
  rewrite Hnew.
  assert (Hf : Sw.cache_match (filter (fun e => negb (Sw.matches q e)) c) q'
               = Sw.cache_match c q').
  { induction c as [| e c IH]; cbn; [reflexivity |].
    destruct (Sw.matches q e) eqn:Eq; cbn.
    - destruct (Sw.matches q' e) eqn:Eq'; [| exact IH].
      apply matches_url in Eq. apply matches_url in Eq'. congruence.
    - destruct (Sw.matches q' e); [reflexivity | exact IH]. }
  rewrite Hf. now destruct (Sw.cache_match c q').
Qed.

Lemma match_any_app (cs cs' : Sw.CacheStorage) (q : Sw.SwRequest) :
  Sw.match_any (cs ++ cs')%list q
  = match Sw.match_any cs q with
    | Some r => Some r
    | None => Sw.match_any cs' q
    end.
Proof.
  induction cs as [| [n c] cs IH]; cbn; [reflexivity |].
  destruct (Sw.cache_match c q); [reflexivity | exact IH].
Qed.

Lemma match_any_open (name : string) (cs : Sw.CacheStorage) (q : Sw.SwRequest) :
  Sw.match_any (Sw.caches_open name cs) q = Sw.match_any cs q.
Proof.
  unfold Sw.caches_open. destruct (existsb _ cs); [reflexivity |].
  rewrite match_any_app. now destruct (Sw.match_any cs q).
Qed.

Lemma open_has_cache (name : string) (cs : Sw.CacheStorage) :
  existsb (fun e => String.eqb (fst e) name) (Sw.caches_open name cs) = true.
Proof.
  unfold Sw.caches_open.
  destruct (existsb (fun e => String.eqb (fst e) name) cs) eqn:E; [exact E |].
  rewrite existsb_app. cbn. rewrite String.eqb_refl. apply orb_true_r.
Qed.

Lemma open_existing (name : string) (cs : Sw.CacheStorage) :
  existsb (fun e => String.eqb (fst e) name) cs = true -> Sw.caches_open name cs = cs.
Proof.
  intros H. unfold Sw.caches_open. now rewrite H.
Qed.

Lemma update_has_cache (name : string) (f : Sw.Cache -> Sw.Cache) (cs : Sw.CacheStorage) :
  existsb (fun e => String.eqb (fst e) name) (Sw.update_cache name f cs)
  = existsb (fun e => String.eqb (fst e) name) cs.
Proof.
  unfold Sw.update_cache.
  induction cs as [| [n c] cs IH]; cbn [map existsb fst snd]; [reflexivity |].
  rewrite IH. destruct (String.eqb n name) eqn:E; cbn [fst]; now rewrite E.
Qed.

Lemma match_any_none (cs : Sw.CacheStorage) (q : Sw.SwRequest) :
  Sw.match_any cs q = None ->
  forall name c, In (name, c) cs -> Sw.cache_match c q = None.
Proof.
  induction cs as [| [n c] cs IH]; cbn; [intros _ ? ? [] |].
  destruct (Sw.cache_match c q) eqn:Hc; [discriminate |].
  intros H name c' [[= <- <-] | Hin]; [exact Hc | now apply (IH H name)].
Qed.

Lemma match_any_in (cs : Sw.CacheStorage) (q : Sw.SwRequest) (r : Sw.SwResponse) :
  Sw.match_any cs q = Some r ->
  exists name c k, In (name, c) cs /\ In (k, r) c
                   /\ Sw.request_url k = Sw.request_url q.
Proof.
  induction cs as [| [n c] cs IH]; cbn; [discriminate |].
  destruct (Sw.cache_match c q) as [r0 |] eqn:Hc.
  - intros [= ->]. destruct (cache_match_in _ _ _ Hc) as [k [Hin Hu]].
    exists n, c, k. split; [now left | split; assumption].
  - intros H. destruct (IH H) as [name [c' [k [Hin [Hk Hu]]]]].
    exists name, c', k. split; [now right | split; assumption].
Qed.

Lemma in_update_cache (name : string) (f : Sw.Cache -> Sw.Cache)
    (cs : Sw.CacheStorage) (n : string) (c : Sw.Cache) :
  In (n, c) (Sw.update_cache name f cs) ->
  exists c0, In (n, c0) cs /\ c = if String.eqb n name then f c0 else c0.
Proof.
  unfold Sw.update_cache. intros H. apply in_map_iff in H.
  destruct H as [[n0 c0] [He Hin]]. cbn [fst snd] in He.
  destruct (String.eqb n0 name) eqn:E; injection He as <- <-;
    exists c0; (split; [exact Hin | now rewrite E]).
Qed.

Lemma kept_match (req : Sw.SwRequest) (res : Sw.SwResponse) (cs : Sw.CacheStorage) :
  Sw.kept req res cs -> Sw.match_any cs req = Some res.
Proof.
  intros [Hall Hex]. induction cs as [| [n c] cs IH]; [discriminate |].
  cbn [Sw.match_any]. pose proof (Hall n c (or_introl eq_refl)) as Hc.
  cbn [existsb fst] in Hex.
  destruct (String.eqb n Sw.CACHE_NAME); rewrite Hc; [reflexivity |].
  apply IH; [| exact Hex]. intros name c' Hin. apply Hall. now right.
Qed.

(** ** The service worker: cache first *)

Section Kept.

Variable own : Sw.Url.
Variable req : Sw.SwRequest.
Variable res : Sw.SwResponse.

Lemma kept_update (f : Sw.Cache -> Sw.Cache) (cs : Sw.CacheStorage) :
  Sw.kept req res cs ->
  (forall n c, In (n, c) cs ->
               Sw.cache_match c req = Some res ->
               Sw.cache_match (f c) req = Some res) ->
  Sw.kept req res (Sw.update_cache Sw.CACHE_NAME f cs).
Proof.
  intros [Hall Hex] Hf. split; [| now rewrite update_has_cache].
  intros n c Hin. destruct (in_update_cache _ _ _ _ _ Hin) as [c0 [Hin0 ->]].
  pose proof (Hall n c0 Hin0) as Hc.
  destruct (String.eqb n Sw.CACHE_NAME); [now apply (Hf n) | exact Hc].
Qed.

Lemma kept_fetch (net : Sw.Network) (q : Sw.SwRequest) (w : Sw.SwWorld) :
  Sw.kept req res (Sw.storage w) ->
  Sw.kept req res (Sw.storage (snd (Sw.on_fetch net own q w))).
Proof.
  intros K. unfold Sw.on_fetch, Sw.sw_fetch.
  destruct (Sw.network_first own q).
  - destruct (net _ q); cbn [Sw.storage]; [exact K |].
    destruct (Sw.caches_match _ q); exact K.
  - destruct (Sw.caches_match (Sw.storage w) q) eqn:Hm; [exact K |].
    destruct (net _ q) as [r |]; cbn [snd Sw.storage]; [| exact K].
    unfold Sw.open_and_put. rewrite (open_existing _ _ (proj2 K)).
    destruct (Sw.storable q r) eqn:Hs; [| exact K].
    apply kept_update; [exact K |].
    intros n c Hin Hc.
    assert (Hq : Sw.cache_match c q = None).
    { unfold Sw.storable in Hs. unfold Sw.caches_match in Hm.
      destruct (Sw.is_get q); [| discriminate].
      exact (match_any_none _ _ Hm n c Hin). }
    rewrite (cache_put_miss _ _ _ Hq), cache_match_app. now rewrite Hc.
Qed.

Lemma kept_activate (w : Sw.SwWorld) :
  Sw.kept req res (Sw.storage w) ->
  Sw.kept req res (Sw.storage (Sw.on_activate w)).
Proof.
  intros [Hall Hex]. unfold Sw.on_activate. cbn [Sw.storage]. rewrite fold_delete.
  split.
  - intros n c Hin. apply filter_In in Hin. now apply Hall.
  - apply existsb_exists in Hex. destruct Hex as [e [Hin He]].
    apply existsb_exists. exists e. split; [| exact He].
    apply filter_In. split; [exact Hin |].
    apply negb_true_iff. destruct (existsb _ _) eqn:Ex; [| reflexivity].
    apply existsb_exists in Ex. destruct Ex as [k [Hk Hek]].
    apply filter_In in Hk. destruct Hk as [_ Hk].
    apply String.eqb_eq in Hek. subst k. rewrite He in Hk. discriminate.
Qed.

Lemma fetch_all_spec (net : Sw.Network) (reqs : list Sw.SwRequest) (w : Sw.SwWorld) :
  map fst (fst (Sw.fetch_all net reqs w)) = reqs
  /\ Sw.storage (snd (Sw.fetch_all net reqs w)) = Sw.storage w
  /\ Sw.fetched (snd (Sw.fetch_all net reqs w)) = (Sw.fetched w ++ reqs)%list.
Proof.
  revert w. induction reqs as [| q reqs IH]; intros w; cbn [Sw.fetch_all].
  - cbn. now rewrite app_nil_r.
  - unfold Sw.sw_fetch.
    specialize (IH {| Sw.storage := Sw.storage w;
                      Sw.fetched := (Sw.fetched w ++ [q])%list |}).
    destruct (Sw.fetch_all net reqs _) as [rest w2]. cbn [fst snd map] in *.
    destruct IH as [H1 [H2 H3]]. rewrite H1, H2, H3. cbn [Sw.storage Sw.fetched].
    now rewrite <- app_assoc.
Qed.

Lemma fold_put_other (results : list (Sw.SwRequest * option Sw.SwResponse))
    (c : Sw.Cache) :
  (forall x, In x results -> Sw.request_url (fst x) <> Sw.request_url req) ->
  Sw.cache_match (fold_left Sw.put_fetched results c) req = Sw.cache_match c req.
Proof.
  revert c. induction results as [| x results IH]; intros c H; cbn [fold_left];
    [reflexivity |].
  rewrite IH by (intros y Hy; apply H; now right).
  unfold Sw.put_fetched. destruct (snd x); [| reflexivity].
  apply cache_match_put_other. apply H. now left.
Qed.

Lemma kept_install (net : Sw.Network) (w : Sw.SwWorld) :
  Sw.is_asset own req = false ->
  Sw.kept req res (Sw.storage w) ->
  Sw.kept req res (Sw.storage (snd (Sw.on_install net own w))).
Proof.
  intros Ha K. unfold Sw.on_install, Sw.add_all.
  pose proof (fetch_all_spec net (map (Sw.asset_request own) Sw.STATIC_ASSETS)
                {| Sw.storage := Sw.caches_open Sw.CACHE_NAME (Sw.storage w);
                   Sw.fetched := Sw.fetched w |}) as [Hreq [Hst _]].
  destruct (Sw.fetch_all net _ _) as [results w1]. cbn [fst snd Sw.storage] in *.
  rewrite (open_existing _ _ (proj2 K)) in Hst.
  destruct (forallb Sw.fetched_ok results); cbn [snd Sw.storage]; rewrite Hst;
    [| exact K].
  apply kept_update; [exact K |].
  intros n c _ Hc. rewrite fold_put_other; [exact Hc |].
  intros x Hx Hu.
  assert (Hr : In (fst x) (map (Sw.asset_request own) Sw.STATIC_ASSETS)).
  { rewrite <- Hreq. now apply in_map. }
  apply in_map_iff in Hr. destruct Hr as [path [Hp Hpath]].
  unfold Sw.is_asset in Ha.
  assert (Ht : existsb
                 (fun path => Sw.url_eqb (Sw.request_url (Sw.asset_request own path))
                                (Sw.request_url req)) Sw.STATIC_ASSETS = true).
  { apply existsb_exists. exists path. split; [exact Hpath |].
    apply url_eqb_eq. now rewrite Hp. }
  rewrite Ht in Ha. discriminate.
Qed.

Lemma kept_events (net : Sw.Network) (events : list Sw.Event) (w : Sw.SwWorld) :
  (In Sw.Install events -> Sw.is_asset own req = false) ->
  Sw.kept req res (Sw.storage w) ->
  Sw.kept req res (Sw.storage (fold_left (Sw.handle net own) events w)).
Proof.
  revert w. induction events as [| ev events IH]; intros w Ha K; cbn [fold_left];
    [exact K |].
  apply IH; [intros Hin; apply Ha; now right |].
  destruct ev as [| | q]; cbn [Sw.handle].
  - apply kept_install; [apply Ha; now left | exact K].
  - now apply kept_activate.
  - now apply kept_fetch.
Qed.

Lemma kept_after_first_fetch (cs : Sw.CacheStorage) :
  Sw.storable req res = true ->
  Sw.match_any cs req = None ->
  Sw.kept req res (Sw.open_and_put Sw.CACHE_NAME req res cs).
Proof.
  intros Hs Hm. unfold Sw.open_and_put. rewrite Hs.
  assert (Hv : Sw.vary_known res = true).
  { unfold Sw.storable in Hs. now apply andb_true_iff in Hs. }
  split; [| rewrite update_has_cache; apply open_has_cache].
  intros n c Hin. destruct (in_update_cache _ _ _ _ _ Hin) as [c0 [Hin0 ->]].
  destruct (String.eqb n Sw.CACHE_NAME); [now apply cache_match_put_same |].
  rewrite <- (match_any_open Sw.CACHE_NAME) in Hm.
  exact (match_any_none _ _ Hm n c0 Hin0).
Qed.

End Kept.

(** X14: a GET over http(s) for a URL of the worker's own hostname outside
    [/api/] that no cache answered and that the network answered with a
    response [cache.put] accepts (not partial, no [Vary: *]; any status, a 404
    or a 500 as well) is stored under [stockai-v1].  From then on, through
    any sequence of fetch and activate events, and of install events too
    unless the URL is that of one of the four static assets, a fetch event for
    that request is served that same response, without any fetch and without
    any change of the caches, whatever the network answers by then. *)
Theorem fetched_once_served_forever
    (net net' : Sw.Network) (own : Sw.Url) (req : Sw.SwRequest) (w : Sw.SwWorld)
    (res : Sw.SwResponse) (events : list Sw.Event) :
  Sw.network_first own req = false ->
  Sw.storable req res = true ->
  Sw.caches_match (Sw.storage w) req = None ->
  net (List.length (Sw.fetched w)) req = Some res ->
  (In Sw.Install events -> Sw.is_asset own req = false) ->
  let w1 := snd (Sw.on_fetch net own req w) in
  let w2 := fold_left (Sw.handle net' own) events w1 in
  fst (Sw.on_fetch net own req w) = Sw.Served res
  /\ Sw.fetched w1 = (Sw.fetched w ++ [req])%list
  /\ Sw.on_fetch net' own req w2 = (Sw.Served res, w2).
Proof.
  intros Hnf Hs Hmiss Hnet Ha w1 w2.
  assert (Hget : Sw.is_get req = true).
  { unfold Sw.storable in Hs. destruct (Sw.is_get req); [reflexivity | discriminate]. }
  assert (Hrun : Sw.on_fetch net own req w
                 = (Sw.Served res,
                    {| Sw.storage := Sw.open_and_put Sw.CACHE_NAME req res (Sw.storage w);
                       Sw.fetched := (Sw.fetched w ++ [req])%list |})).
  { unfold Sw.on_fetch, Sw.sw_fetch. now rewrite Hnf, Hmiss, Hnet. }
  assert (K1 : Sw.kept req res (Sw.storage w1)).
  { subst w1. rewrite Hrun. cbn [snd Sw.storage].
    apply kept_after_first_fetch; [exact Hs |].
    unfold Sw.caches_match in Hmiss. now rewrite Hget in Hmiss. }
  assert (K2 : Sw.kept req res (Sw.storage w2)) by now apply kept_events.
  subst w1. rewrite Hrun in *. cbn [fst snd Sw.fetched].
  split; [reflexivity |]. split; [reflexivity |].
  unfold Sw.on_fetch. rewrite Hnf. unfold Sw.caches_match. rewrite Hget.
  now rewrite (kept_match _ _ _ K2).
Qed.

Lemma fetched_once_served_forever_witness :
  fst (Sw.on_fetch SwScenario.not_found SwScenario.location SwScenario.logo
         SwScenario.empty)
  = Sw.Served (SwScenario.plain 404 "Not Found")
  /\ Sw.fetched (snd (Sw.on_fetch SwScenario.not_found SwScenario.location
                        SwScenario.logo SwScenario.empty))
     = [SwScenario.logo]
  /\ Sw.on_fetch SwScenario.offline SwScenario.location SwScenario.logo
       (fold_left (Sw.handle SwScenario.offline SwScenario.location)
          [Sw.Fetch SwScenario.quote; Sw.Activate; Sw.Install]
          (snd (Sw.on_fetch SwScenario.not_found SwScenario.location SwScenario.logo
                  SwScenario.empty)))
     = (Sw.Served (SwScenario.plain 404 "Not Found"),
        fold_left (Sw.handle SwScenario.offline SwScenario.location)
          [Sw.Fetch SwScenario.quote; Sw.Activate; Sw.Install]
          (snd (Sw.on_fetch SwScenario.not_found SwScenario.location SwScenario.logo
                  SwScenario.empty))).
Proof.
  apply (fetched_once_served_forever SwScenario.not_found SwScenario.offline
           SwScenario.location SwScenario.logo SwScenario.empty
           (SwScenario.plain 404 "Not Found")
           [Sw.Fetch SwScenario.quote; Sw.Activate; Sw.Install]);
    reflexivity.
Defined.


(** ** The service worker: what is never cached *)

Lemma static_only_open (own : Sw.Url) (name : string) (cs : Sw.CacheStorage) :
  Sw.static_only own cs -> Sw.static_only own (Sw.caches_open name cs).
Proof.
  intros H n c q r Hin Hq. unfold Sw.caches_open in Hin.
  destruct (existsb _ cs); [exact (H n c q r Hin Hq) |].
  apply in_app_or in Hin. destruct Hin as [Hin | [[= <- <-] | []]].
  - exact (H n c q r Hin Hq).
  - destruct Hq.
Qed.

Lemma static_only_update (own : Sw.Url) (name : string) (f : Sw.Cache -> Sw.Cache)
    (cs : Sw.CacheStorage) :
  Sw.static_only own cs ->
  (forall c q r,
      In (q, r) (f c) ->
      In (q, r) c
      \/ (Sw.hostname (Sw.request_url q) = Sw.hostname own
          /\ String.prefix "/api/" (Sw.pathname (Sw.request_url q)) = false)) ->
  Sw.static_only own (Sw.update_cache name f cs).
Proof.
  intros H Hf n c q r Hin Hq.
  destruct (in_update_cache _ _ _ _ _ Hin) as [c0 [Hin0 ->]].
  destruct (String.eqb n name).
  - destruct (Hf c0 q r Hq) as [Hold | Hnew].
    + exact (H n c0 q r Hin0 Hold).
    + exact Hnew.
  - exact (H n c0 q r Hin0 Hq).
Qed.

Lemma in_cache_put (c : Sw.Cache) (q q' : Sw.SwRequest) (r r' : Sw.SwResponse) :
  In (q', r') (Sw.cache_put c q r) -> In (q', r') c \/ q' = q.
Proof.
  unfold Sw.cache_put. intros H. apply in_app_or in H.
  destruct H as [H | [[= <- <-] | []]].
  - left. apply filter_In in H. tauto.
  - now right.
Qed.

Lemma in_fold_put (results : list (Sw.SwRequest * option Sw.SwResponse))
    (c : Sw.Cache) (q : Sw.SwRequest) (r : Sw.SwResponse) :
  In (q, r) (fold_left Sw.put_fetched results c) ->
  In (q, r) c \/ exists x, In x results /\ q = fst x.
Proof.
  revert c. induction results as [| x results IH]; intros c H; cbn in H.
  - now left.
  - destruct (IH _ H) as [Hc | [y [Hy Hq]]].
    + unfold Sw.put_fetched in Hc. destruct (snd x) as [rx |].
      * destruct (in_cache_put _ _ _ _ _ Hc) as [Hold | ->]; [now left |].
        right. exists x. split; [now left | reflexivity].
      * now left.
    + right. exists y. split; [now right | exact Hq].
Qed.

Lemma asset_is_static (own : Sw.Url) (path : string) :
  In path Sw.STATIC_ASSETS ->
  String.prefix "/api/" path = false
  /\ Sw.network_first own (Sw.asset_request own path) = false.
Proof.
  intros H. assert (Hp : String.prefix "/api/" path = false).
  { cbn in H. destruct H as [<- | [<- | [<- | [<- | []]]]]; reflexivity. }
  split; [exact Hp |].
  unfold Sw.network_first, Sw.asset_request; cbn. now rewrite Hp, String.eqb_refl.
Qed.

Lemma static_only_install (net : Sw.Network) (own : Sw.Url) (w : Sw.SwWorld) :
  Sw.static_only own (Sw.storage w) ->
  Sw.static_only own (Sw.storage (snd (Sw.on_install net own w))).
Proof.
  intros H. unfold Sw.on_install, Sw.add_all.
  pose proof (fetch_all_spec net (map (Sw.asset_request own) Sw.STATIC_ASSETS)
                {| Sw.storage := Sw.caches_open Sw.CACHE_NAME (Sw.storage w);
                   Sw.fetched := Sw.fetched w |}) as [Hreq [Hst _]].
  destruct (Sw.fetch_all net _ _) as [results w1]. cbn [fst snd Sw.storage] in *.
  destruct (forallb Sw.fetched_ok results); cbn [snd Sw.storage]; rewrite Hst.
  - apply static_only_update; [now apply static_only_open |].
    intros c q r Hin. destruct (in_fold_put _ _ _ _ Hin) as [Hc | [x [Hx ->]]].
    + now left.
    + right. assert (Hr : In (fst x) (map (Sw.asset_request own) Sw.STATIC_ASSETS)).
      { rewrite <- Hreq. now apply in_map. }
      apply in_map_iff in Hr. destruct Hr as [path [<- Hpath]].
      cbn. split; [reflexivity | now apply (asset_is_static own)].
  - now apply static_only_open.
Qed.

Lemma static_only_fetch (net : Sw.Network) (own : Sw.Url) (req : Sw.SwRequest)
    (w : Sw.SwWorld) :
  Sw.static_only own (Sw.storage w) ->
  Sw.static_only own (Sw.storage (snd (Sw.on_fetch net own req w))).
Proof.
  intros H. unfold Sw.on_fetch, Sw.sw_fetch.
  destruct (Sw.network_first own req) eqn:Hnf.
  - destruct (net _ req); cbn [Sw.storage]; [exact H |].
    destruct (Sw.caches_match _ req); exact H.
  - destruct (Sw.caches_match (Sw.storage w) req); [exact H |].
    destruct (net _ req) as [res |]; cbn [snd Sw.storage]; [| exact H].
    unfold Sw.open_and_put.
    destruct (Sw.storable req res); [| now apply static_only_open].
    apply static_only_update; [now apply static_only_open |].
    intros c q r Hin. destruct (in_cache_put _ _ _ _ _ Hin) as [Hc | ->];
      [now left | right].
    unfold Sw.network_first in Hnf. apply orb_false_iff in Hnf.
    destruct Hnf as [Hp Hh]. apply negb_false_iff, String.eqb_eq in Hh.
    split; assumption.
Qed.

Lemma static_only_activate (own : Sw.Url) (w : Sw.SwWorld) :
  Sw.static_only own (Sw.storage w) ->
  Sw.static_only own (Sw.storage (Sw.on_activate w)).
Proof.
  intros H n c q r Hin Hq. unfold Sw.on_activate in Hin. cbn [Sw.storage] in Hin.
  rewrite fold_delete in Hin. apply filter_In in Hin. destruct Hin as [Hin _].
  exact (H n c q r Hin Hq).
Qed.

Lemma static_only_events (net : Sw.Network) (own : Sw.Url) (events : list Sw.Event)
    (w : Sw.SwWorld) :
  Sw.static_only own (Sw.storage w) ->
  Sw.static_only own (Sw.storage (fold_left (Sw.handle net own) events w)).
Proof.
  revert w. induction events as [| ev events IH]; intros w H; cbn [fold_left];
    [exact H |].
  apply IH. destruct ev as [| | req]; cbn [Sw.handle].
  - now apply static_only_install.
  - now apply static_only_activate.
  - now apply static_only_fetch.
Qed.

(** X15: in a worker that started without caches, after any sequence of
    install, activate and fetch events, every stored request is for the
    worker's own hostname (whatever its scheme and port) and for a path
    outside [/api/].  So a request under [/api/], or to another hostname, is
    always answered from the network when the network answers, never changes
    the caches, and fails when the network fails: the cache lookup of its
    [catch] finds nothing. *)
Theorem api_is_never_cached (net : Sw.Network) (own : Sw.Url) (events : list Sw.Event) :
  Sw.static_only own (Sw.storage (Sw.run net own events))
  /\ forall net' req,
      Sw.network_first own req = true ->
      Sw.storage (snd (Sw.on_fetch net' own req (Sw.run net own events)))
      = Sw.storage (Sw.run net own events)
      /\ (forall res,
             net' (List.length (Sw.fetched (Sw.run net own events))) req = Some res ->
             fst (Sw.on_fetch net' own req (Sw.run net own events)) = Sw.Served res)
      /\ (net' (List.length (Sw.fetched (Sw.run net own events))) req = None ->
          fst (Sw.on_fetch net' own req (Sw.run net own events)) = Sw.Failed).
Proof.
  assert (Hinv : Sw.static_only own (Sw.storage (Sw.run net own events))).
  { unfold Sw.run. apply static_only_events. intros n c q r []. }
  split; [exact Hinv |].
  intros net' req Hnf. set (w := Sw.run net own events) in *.
  assert (Hmiss : Sw.caches_match (Sw.storage w) req = None).
  { unfold Sw.caches_match. destruct (Sw.is_get req); [| reflexivity].
    destruct (Sw.match_any (Sw.storage w) req) as [r |] eqn:Hm; [| reflexivity].
    destruct (match_any_in _ _ _ Hm) as [name [c [k [Hin [Hk Hu]]]]].
    destruct (Hinv name c k r Hin Hk) as [Hh Hp].
    unfold Sw.network_first in Hnf. rewrite <- Hu, Hp, Hh, String.eqb_refl in Hnf.
    discriminate. }
  unfold Sw.on_fetch, Sw.sw_fetch. rewrite Hnf. cbn [Sw.storage].
  destruct (net' (List.length (Sw.fetched w)) req) as [res |]; cbn [fst snd Sw.storage].
  - split; [reflexivity |]. split; [now intros res' [= <-] | discriminate].
  - rewrite Hmiss. cbn [fst snd Sw.storage].
    split; [reflexivity |]. split; [discriminate | reflexivity].
Qed.

Lemma api_is_never_cached_witness :
  fst (Sw.on_fetch SwScenario.offline SwScenario.location SwScenario.quote
         (Sw.run SwScenario.online SwScenario.location
            [Sw.Install; Sw.Activate; Sw.Fetch SwScenario.quote; Sw.Fetch SwScenario.logo]))
  = Sw.Failed.
Proof.
  apply (proj2 (api_is_never_cached SwScenario.online SwScenario.location
                  [Sw.Install; Sw.Activate; Sw.Fetch SwScenario.quote;
                   Sw.Fetch SwScenario.logo])
           SwScenario.offline SwScenario.quote eq_refl).
  reflexivity.
Defined.

(** The hostname is all the fetch listener compares: a GET for the same
    hostname on another port takes the cache-first branch and is stored. *)
Example other_port_is_cached :
  Sw.caches_match
    (Sw.storage (snd (Sw.on_fetch SwScenario.online SwScenario.location
                        SwScenario.other_port SwScenario.empty)))
    SwScenario.other_port
  = Some (SwScenario.plain 200 "ok").
Proof. reflexivity. Qed.

(** ** The service worker: installation *)






